(** * SceneJS quaternion transform node

    A shallow embedding of [SceneJS.Quaternion] (the scene node that keeps a
    quaternion-encoded rotation, composes it with the ambient model-view
    transform and memoises the result), in its two revisions:

    - [Quaternion]: src/scenejs/transformation/modelView/quaternion.js, whose
      configuration gives the base rotation as raw [x, y, z, angle] fields;
    - [QuaternionQ]: the revision whose configuration nests the base rotation
      in a [q] object.

    JavaScript numbers are IEEE 754 doubles, here the kernel's [float].  The
    math facility the node calls ([SceneJS_math_*]) is not part of the sources:
    the node is modelled over an interface of it ([SceneJS_math]), and a
    separate module ([SpecMath]) gives the facility as the specification
    describes it. *)

From Stdlib Require Import Bool List Arith Lia PrimFloat.
Import ListNotations.

Set Implicit Arguments.

(** ** JavaScript values *)

Module JS.

Definition number := float.

(** Truthiness of a number: everything but [0], [-0] and [NaN]. *)
Definition truthy (v : number) : bool :=
  negb (v =? 0)%float && negb (is_nan v).

(** The value of a property read: [None] is [undefined] (absent). *)
Definition prop := option number.

Definition prop_truthy (p : prop) : bool :=
  match p with
  | Some v => truthy v
  | None => false
  end.

(** [p || 0]. *)
Definition or0 (p : prop) : number :=
  match p with
  | Some v => if truthy v then v else 0%float
  | None => 0%float
  end.

(** [ToNumber]: what arithmetic makes of a property read. *)
Definition ToNumber (p : prop) : number :=
  match p with
  | Some v => v
  | None => nan
  end.

(** How a call ends: it returns, or an exception escapes it.  Either way
    the state it leaves behind is kept. *)
Inductive completion (A : Type) : Type :=
| Normal (a : A)
| Throw (a : A).

Definition state_of {A} (c : completion A) : A :=
  match c with
  | Normal a => a
  | Throw a => a
  end.

Definition returns {A} (c : completion A) : bool :=
  match c with
  | Normal _ => true
  | Throw _ => false
  end.

End JS.

(** ** Configuration objects *)

(** A rotation object [{x, y, z, angle}] (and [w], which both revisions
    look at). *)
Module Rot.
Record t : Type := mk {
  x : JS.prop;
  y : JS.prop;
  z : JS.prop;
  angle : JS.prop;
  w : JS.prop
}.

(** [{}] *)
Definition empty : t := mk None None None None None.

Definition axisAngle (ax ay az deg : float) : t :=
  mk (Some ax) (Some ay) (Some az) (Some deg) None.
End Rot.

(** The object [_getParams] returns. *)
Module Params.
Record t : Type := mk {
  x : JS.prop;
  y : JS.prop;
  z : JS.prop;
  angle : JS.prop;
  w : JS.prop;
  rotations : option (list Rot.t);
  q : option Rot.t
}.

Definition empty : t := mk None None None None None None None.

(** The fields a callee reads when it is handed the params object as a
    rotation ([this.setRotation(params)]). *)
Definition as_rotation (p : t) : Rot.t :=
  Rot.mk (x p) (y p) (z p) (angle p) (w p).
End Params.

(** ** The math facility, as an interface *)

Class SceneJS_math : Type := {
  Quat : Type;
  Mat4 : Type;
  SceneJS_math_identityQuaternion : Quat;
  SceneJS_math_angleAxisQuaternion : float -> float -> float -> float -> Quat;
  SceneJS_math_mulQuaternions : Quat -> Quat -> Quat;
  SceneJS_math_normalizeQuaternion : Quat -> Quat;
  SceneJS_math_newMat4FromQuaternion : Quat -> Mat4;
  SceneJS_math_mulMat4 : Mat4 -> Mat4 -> Mat4
}.

(** ** The node and its collaborators *)

(** Calls of the node's own methods, in a history no method reads (ghost
    state: it is there to count calls). *)
Inductive Call : Type :=
| Call_init
| Call_setRotation
| Call_rotate
| Call_normalize.

Definition Call_eq_dec (a b : Call) : {a = b} + {a <> b}.
Proof. decide equality. Defined.

Section Model.

Context {M : SceneJS_math}.

(** Per-render data handed to a configuration callback. *)
Variable Data : Type.

(** A transform as the model-view module holds it. *)
Record Xform : Type := mkXform {
  localMatrix : option Mat4;
  matrix : Mat4;
  fixed : bool
}.

(** Modelled from the spec: the traversal state a render step reads and
    writes, that is [SceneJS_modelViewTransformModule] (one current
    transform, which [getTransform] returns and [setTransform] replaces) and
    [SceneJS_instancingModule] (whether the traversal is inside an instanced
    subtree).  Neither module is part of the sources.  The slot holds a
    JavaScript reference, so it may be [null] ([None]). *)
Record Env : Type := mkEnv {
  transform : option Xform;
  instancingFlag : bool
}.

(** Modelled from the spec: [SceneJS_modelViewTransformModule.getTransform]. *)
Definition getTransform (e : Env) : option Xform := transform e.

(** Modelled from the spec: [SceneJS_modelViewTransformModule.setTransform]. *)
Definition setTransform (t : option Xform) (e : Env) : Env :=
  {| transform := t; instancingFlag := instancingFlag e |}.

(** Modelled from the spec: [SceneJS_instancingModule.instancing]. *)
Definition instancing (e : Env) : bool := instancingFlag e.

(** Modelled from the spec: what the node base keeps of the constructor's
    arguments, a static configuration object or a callback producing one per
    render. *)
Inductive Config : Type :=
| Static (p : Params.t)
| Dynamic (f : option Data -> Params.t).

Record Node : Type := mkNode {
  _config : Config;
  _fixedParams : bool;
  _memoLevel : nat;
  _mat : option Mat4;
  _xform : option Xform;
  _q : Quat;
  _calls : list Call
}.

Definition set_memoLevel (l : nat) (n : Node) : Node :=
  mkNode (_config n) (_fixedParams n) l (_mat n) (_xform n) (_q n) (_calls n).

Definition set_mat (m : option Mat4) (n : Node) : Node :=
  mkNode (_config n) (_fixedParams n) (_memoLevel n) m (_xform n) (_q n) (_calls n).

Definition set_xform (t : option Xform) (n : Node) : Node :=
  mkNode (_config n) (_fixedParams n) (_memoLevel n) (_mat n) t (_q n) (_calls n).

Definition set_q (v : Quat) (n : Node) : Node :=
  mkNode (_config n) (_fixedParams n) (_memoLevel n) (_mat n) (_xform n) v (_calls n).

Definition called (c : Call) (n : Node) : Node :=
  mkNode (_config n) (_fixedParams n) (_memoLevel n) (_mat n) (_xform n) (_q n)
         (c :: _calls n).

Definition calls_of (c : Call) (n : Node) : nat :=
  count_occ Call_eq_dec (_calls n) c.

(** Modelled from the spec: the generic node base ([SceneJS.Node], not part
    of the sources).  Its constructor records the configuration and whether
    it is static, and leaves the node dirty (memoisation level 0);
    [_getParams] returns the static object or asks the callback. *)
Definition SceneJS_Node (cfg : Config) (q0 : Quat) : Node :=
  {| _config := cfg;
     _fixedParams := match cfg with Static _ => true | Dynamic _ => false end;
     _memoLevel := 0;
     _mat := None;
     _xform := None;
     _q := q0;
     _calls := [] |}.

(** Modelled from the spec: [SceneJS.Node.prototype._getParams] (see
    [SceneJS_Node]). *)
Definition _getParams (n : Node) (data : option Data) : Params.t :=
  match _config n with
  | Static p => p
  | Dynamic f => f data
  end.

(** [SceneJS.Quaternion.prototype.rotate], the same in both revisions. *)
Definition rotate (q : Rot.t) (n : Node) : Node :=
  let n := called Call_rotate n in
  let n :=
    set_q (SceneJS_math_mulQuaternions
             (SceneJS_math_angleAxisQuaternion
                (JS.or0 (Rot.x q)) (JS.or0 (Rot.y q)) (JS.or0 (Rot.z q))
                (JS.or0 (Rot.angle q)))
             (_q n)) n in
  set_memoLevel 0 n.

(** The loop [for (i = 0; i < rotations.length; i++) this.rotate(rotations[i])]. *)
Fixpoint rotate_each (rs : list Rot.t) (n : Node) : Node :=
  match rs with
  | [] => n
  | r :: rs' => rotate_each rs' (rotate r n)
  end.

(** [SceneJS.Quaternion.prototype.getMatrix]. *)
Definition getMatrix (n : Node) : Mat4 :=
  SceneJS_math_newMat4FromQuaternion (_q n).

(** What the children of a node do when rendered: they run on the traversal
    state, and return or throw. *)
Definition Children : Type := Env -> JS.completion Env.

(** Lines 206-213 of [_render]: a dirty node re-applies a dynamic
    configuration, or is marked level 1, and rebuilds its local matrix. *)
Definition render_local (init : Params.t -> Node -> Node)
           (data : option Data) (n : Node) : Node :=
  if _memoLevel n =? 0 then
    let n :=
      if negb (_fixedParams n)
      then init (_getParams n data) n
      else set_memoLevel 1 n in
    set_mat (Some (SceneJS_math_newMat4FromQuaternion (_q n))) n
  else n.

(** Lines 215-226 of [_render]: below level 2 the composed transform is
    rebuilt from the ambient one.  Reading [superXform.matrix] off [null], or
    multiplying by a [null] local matrix, throws. *)
Definition render_compose (superXform : option Xform) (inst : bool)
           (n : Node) : JS.completion Node :=
  if _memoLevel n <? 2 then
    match superXform, _mat n with
    | Some s, Some m =>
        let tempMat := SceneJS_math_mulMat4 (matrix s) m in
        let n :=
          set_xform
            (Some {| localMatrix := Some m;
                     matrix := tempMat;
                     fixed := fixed s && _fixedParams n && negb inst |}) n in
        JS.Normal
          (if (_memoLevel n =? 1) && fixed s && negb inst
           then set_memoLevel 2 n
           else n)
    | _, _ => JS.Throw n
    end
  else JS.Normal n.

(** [SceneJS.Quaternion.prototype._render], over the revision's [_init]. *)
Definition render_with (init : Params.t -> Node -> Node)
           (n : Node) (data : option Data) (renderNodes : Children)
           (env : Env) : JS.completion (Node * Env) :=
  let n := render_local init data n in
  let superXform := getTransform env in
  match render_compose superXform (instancing env) n with
  | JS.Throw n => JS.Throw (n, env)
  | JS.Normal n =>
      match renderNodes (setTransform (_xform n) env) with
      | JS.Throw env' => JS.Throw (n, env')
      | JS.Normal env' => JS.Normal (n, setTransform superXform env')
      end
  end.

(** The transform a render step hands to [setTransform] before it recurses
    into the children. *)
Definition published (init : Params.t -> Node -> Node)
           (n : Node) (data : option Data) (env : Env) : option Xform :=
  _xform (JS.state_of
            (render_compose (getTransform env) (instancing env)
                            (render_local init data n))).

End Model.

Arguments Static {Data} p.

(** ** The revision of quaternion.js: raw [x, y, z, angle] configuration *)

Module Quaternion.
Section Methods.

Context {M : SceneJS_math}.
Variable Data : Type.

(** [SceneJS.Quaternion.prototype.setRotation] (lines 143-148). *)
Definition setRotation (q : option Rot.t) (n : Node Data) : Node Data :=
let n := called Call_setRotation n in
let q := match q with Some q => q | None => Rot.empty end in
let n :=
  set_q (SceneJS_math_angleAxisQuaternion
           (JS.or0 (Rot.x q)) (JS.or0 (Rot.y q)) (JS.or0 (Rot.z q))
           (JS.or0 (Rot.angle q))) n in
set_memoLevel 0 n.

(** [SceneJS.Quaternion.prototype.normalize] (lines 188-192). *)
Definition normalize (n : Node Data) : Node Data :=
let n := called Call_normalize n in
let n := set_q (SceneJS_math_normalizeQuaternion (_q n)) n in
set_memoLevel 0 n.

(** The guard of [_init] (line 195), [params.x] read twice as written. *)
Definition base_rotation_given (params : Params.t) : bool :=
JS.prop_truthy (Params.x params) || JS.prop_truthy (Params.y params)
|| JS.prop_truthy (Params.x params) || JS.prop_truthy (Params.angle params)
|| JS.prop_truthy (Params.w params).

(** [SceneJS.Quaternion.prototype._init] (lines 194-203). *)
Definition _init (params : Params.t) (n : Node Data) : Node Data :=
let n := called Call_init n in
let n :=
  if base_rotation_given params
  then setRotation (Some (Params.as_rotation params)) n
  else n in
match Params.rotations params with
| Some rs => rotate_each rs n
| None => n
end.

(** The constructor [SceneJS.Quaternion] (lines 74-83). *)
Definition SceneJS_Quaternion (cfg : Config Data) : Node Data :=
let n := SceneJS_Node cfg SceneJS_math_identityQuaternion in
let n := set_mat None n in
let n := set_xform None n in
let n := set_q SceneJS_math_identityQuaternion n in
if _fixedParams n then _init (_getParams n None) n else n.

(** [SceneJS.Quaternion.prototype._render] (lines 205-230). *)
Definition _render : Node Data -> option Data -> Children -> Env ->
                   JS.completion (Node Data * Env) :=
render_with _init.

End Methods.
End Quaternion.

(** ** The revision with a nested [q] configuration object *)

Module QuaternionQ.
Section Methods.

Context {M : SceneJS_math}.
Variable Data : Type.

(** [SceneJS.Quaternion.prototype.setRotation] of this revision: with a
  [w] given the branch is empty; otherwise the angle is handed over as
  read, without a default. *)
Definition setRotation (q : option Rot.t) (n : Node Data) : Node Data :=
let n := called Call_setRotation n in
let q := match q with Some q => q | None => Rot.empty end in
let n :=
  match Rot.w q with
  | Some _ => n
  | None =>
      set_q (SceneJS_math_angleAxisQuaternion
               (JS.or0 (Rot.x q)) (JS.or0 (Rot.y q)) (JS.or0 (Rot.z q))
               (JS.ToNumber (Rot.angle q))) n
  end in
set_memoLevel 0 n.

(** [SceneJS.Quaternion.prototype._init] of this revision. *)
Definition _init (params : Params.t) (n : Node Data) : Node Data :=
let n := called Call_init n in
let n :=
  match Params.q params with
  | Some q => setRotation (Some q) n
  | None => n
  end in
match Params.rotations params with
| Some rs => rotate_each rs n
| None => n
end.

(** The constructor [SceneJS.Quaternion] of this revision. *)
Definition SceneJS_Quaternion (cfg : Config Data) : Node Data :=
let n := SceneJS_Node cfg SceneJS_math_identityQuaternion in
let n := set_mat None n in
let n := set_xform None n in
let n := set_q SceneJS_math_identityQuaternion n in
if _fixedParams n then _init (_getParams n None) n else n.

(** [SceneJS.Quaternion.prototype._render] of this revision. *)
Definition _render : Node Data -> option Data -> Children -> Env ->
                   JS.completion (Node Data * Env) :=
render_with _init.

End Methods.
End QuaternionQ.

(** ** The math facility, as the specification describes it *)

Module SpecMath.

Local Open Scope float_scope.

(** Modelled from the spec: a quaternion, four floating-point components
    (x, y, z, w). *)
Record quat : Type := mkQuat { qx : float; qy : float; qz : float; qw : float }.

(** Modelled from the spec: a 4x4 matrix of the matrix-math facility, here a
    flat array of 16 numbers, column after column. *)
Definition mat4 : Type := list float.

Definition PI : float := 0x1.921fb54442d18p+1.

(** Modelled from the spec: [identity()], the rotation-free quaternion
    (0,0,0,1); [SceneJS_math_identityQuaternion] is not part of the sources. *)
Definition identity : quat := mkQuat 0 0 0 1.

Section Trig.

(** [Math.sin] and [Math.cos], which ECMAScript leaves
    implementation-approximated. *)
Variables Math_sin Math_cos : float -> float.

(** Below this magnitude [normalize] gives up (the specification says
    near-zero and names no bound). *)
Variable epsilon : float.

(** Modelled from the spec: [fromAxisAngle(x, y, z, angleDegrees)], the
    unit quaternion of the rotation by that angle about the axis, which is
    normalized internally; a zero-length axis or a zero angle yields the
    identity.  [SceneJS_math_angleAxisQuaternion] is not part of the
    sources. *)
Definition fromAxisAngle (x y z angleDegrees : float) : quat :=
  let len := sqrt (x * x + y * y + z * z) in
  if (len =? 0) || (angleDegrees =? 0) then identity
  else
    let halfAngle := (angleDegrees / 180 * PI) / 2 in
    let s := Math_sin halfAngle in
    mkQuat (s * (x / len)) (s * (y / len)) (s * (z / len)) (Math_cos halfAngle).

(** Modelled from the spec: [multiply(a, b)], the quaternion product
    [a * b]; [SceneJS_math_mulQuaternions] is not part of the sources. *)
Definition multiply (a b : quat) : quat :=
  mkQuat
    (qw a * qx b + qx a * qw b + qy a * qz b - qz a * qy b)
    (qw a * qy b - qx a * qz b + qy a * qw b + qz a * qx b)
    (qw a * qz b + qx a * qy b - qy a * qx b + qz a * qw b)
    (qw a * qw b - qx a * qx b - qy a * qy b - qz a * qz b).

(** Modelled from the spec: [normalize(q)], rescaling to unit length, the
    identity when the magnitude is near zero;
    [SceneJS_math_normalizeQuaternion] is not part of the sources. *)
Definition normalize (q : quat) : quat :=
  let len := sqrt (qx q * qx q + qy q * qy q + qz q * qz q + qw q * qw q) in
  if len <? epsilon then identity
  else mkQuat (qx q / len) (qy q / len) (qz q / len) (qw q / len).

(** Modelled from the spec: [toMatrix(q)], the equivalent homogeneous
    rotation matrix; [SceneJS_math_newMat4FromQuaternion] is not part of
    the sources. *)
Definition toMatrix (q : quat) : mat4 :=
  let x := qx q in let y := qy q in let z := qz q in let w := qw q in
  [ 1 - 2 * (y * y + z * z); 2 * (x * y + z * w); 2 * (x * z - y * w); 0;
    2 * (x * y - z * w); 1 - 2 * (x * x + z * z); 2 * (y * z + x * w); 0;
    2 * (x * z + y * w); 2 * (y * z - x * w); 1 - 2 * (x * x + y * y); 0;
    0; 0; 0; 1 ].

Definition entry (m : mat4) (row col : nat) : float :=
  nth (row + 4 * col) m 0.

(** Modelled from the spec: the 4x4 matrix product of the matrix-math
    facility; [SceneJS_math_mulMat4] is not part of the sources. *)
Definition mulMat4 (a b : mat4) : mat4 :=
  flat_map
    (fun col =>
       map (fun row =>
              entry a row 0 * entry b 0 col + entry a row 1 * entry b 1 col
              + entry a row 2 * entry b 2 col + entry a row 3 * entry b 3 col)
           [0; 1; 2; 3]%nat)
    [0; 1; 2; 3]%nat.

Definition math : SceneJS_math :=
  {| Quat := quat;
     Mat4 := mat4;
     SceneJS_math_identityQuaternion := identity;
     SceneJS_math_angleAxisQuaternion := fromAxisAngle;
     SceneJS_math_mulQuaternions := multiply;
     SceneJS_math_normalizeQuaternion := normalize;
     SceneJS_math_newMat4FromQuaternion := toMatrix;
     SceneJS_math_mulMat4 := mulMat4 |}.

End Trig.

(** Truncated Taylor series, standing in for [Math.sin] and [Math.cos] where
    the model is run on concrete numbers. *)
Definition taylor_sin (a : float) : float :=
  let a2 := a * a in
  a * (1 - a2 / 6 * (1 - a2 / 20 * (1 - a2 / 42 * (1 - a2 / 72 *
      (1 - a2 / 110 * (1 - a2 / 156 * (1 - a2 / 210 * (1 - a2 / 272)))))))).

Definition taylor_cos (a : float) : float :=
  let a2 := a * a in
  1 - a2 / 2 * (1 - a2 / 12 * (1 - a2 / 30 * (1 - a2 / 56 *
      (1 - a2 / 90 * (1 - a2 / 132 * (1 - a2 / 182 * (1 - a2 / 240))))))).

Definition float_math : SceneJS_math := math taylor_sin taylor_cos 0x1p-40.

(** Whether two quaternions have the same components, as [==] compares
    numbers. *)
Definition quat_eqb (a b : quat) : bool :=
  (qx a =? qx b) && (qy a =? qy b) && (qz a =? qz b) && (qw a =? qw b).

Definition has_nan (q : quat) : bool :=
  is_nan (qx q) || is_nan (qy q) || is_nan (qz q) || is_nan (qw q).

Definition identity_mat4 : mat4 :=
  [1; 0; 0; 0;  0; 1; 0; 0;  0; 0; 1; 0;  0; 0; 0; 1].

End SpecMath.

(** ** Traversals, mutations and the cache invariant *)

Section Lifecycle.

Context {M : SceneJS_math}.
Variable Data : Type.

(** One render visit, as the node sees it: the data of the render pass,
    what its children do, and the traversal state it is entered with. *)
Record Visit : Type := mkVisit {
  visit_data : option Data;
  visit_children : Children;
  visit_env : Env
}.

Definition visit (render : Node Data -> option Data -> Children -> Env ->
                           JS.completion (Node Data * Env))
           (n : Node Data) (v : Visit) : Node Data :=
  fst (JS.state_of (render n (visit_data v) (visit_children v) (visit_env v))).

(** The node after a sequence of visits; a visit that throws ends its
    traversal, and the node keeps the state it had reached. *)
Definition render_visits render (n : Node Data) (vs : list Visit) : Node Data :=
  fold_left (visit render) vs n.

(** The public mutators of quaternion.js. *)
Inductive Mutation : Type :=
| Do_setRotation (q : option Rot.t)
| Do_rotate (q : Rot.t)
| Do_normalize.

Definition mutate (mu : Mutation) (n : Node Data) : Node Data :=
  match mu with
  | Do_setRotation q => Quaternion.setRotation q n
  | Do_rotate q => rotate q n
  | Do_normalize => Quaternion.normalize n
  end.

(** What the caches of a node hold at each memoisation level: a dynamic
    node is always dirty, from level 1 on the local matrix is that of the
    quaternion, and at level 2 the composed transform was built from it
    and is flagged fixed. *)
Definition consistent (n : Node Data) : Prop :=
  _memoLevel n <= 2
  /\ (_fixedParams n = false -> _memoLevel n = 0)
  /\ (1 <= _memoLevel n ->
      _mat n = Some (SceneJS_math_newMat4FromQuaternion (_q n)))
  /\ (_memoLevel n = 2 ->
      exists a, _xform n =
                Some {| localMatrix := Some (SceneJS_math_newMat4FromQuaternion (_q n));
                        matrix := SceneJS_math_mulMat4 a
                                    (SceneJS_math_newMat4FromQuaternion (_q n));
                        fixed := true |}).

(** What the render step needs of a revision's [_init]: it leaves the
    kind of configuration alone, keeps a dirty node dirty, and is logged
    once. *)
Record init_ok (init : Params.t -> Node Data -> Node Data) : Prop := {
  init_fixedParams : forall p n, _fixedParams (init p n) = _fixedParams n;
  init_config : forall p n, _config (init p n) = _config n;
  init_dirty : forall p n, _memoLevel n = 0 -> _memoLevel (init p n) = 0;
  init_logged : forall p n,
      calls_of Call_init (init p n) = S (calls_of Call_init n)
}.

(** What happens to a node between its construction and a render visit:
    visits and calls of the mutators, in any order. *)
Inductive Step : Type :=
| Step_visit (v : Visit)
| Step_mutate (mu : Mutation).

Definition step (n : Node Data) (st : Step) : Node Data :=
  match st with
  | Step_visit v => visit (@Quaternion._render M Data) n v
  | Step_mutate mu => mutate mu n
  end.

Definition run (n : Node Data) (sts : list Step) : Node Data :=
  fold_left step sts n.

(** A traversal state with a fixed ambient transform of matrix [a] and no
    instancing. *)
Definition fixed_ambient (a : Mat4) (l : option Mat4) : Env :=
  {| transform := Some {| localMatrix := l; matrix := a; fixed := true |};
     instancingFlag := false |}.

(** The rotation [rotate] and [setRotation] hand to the math facility. *)
Definition axisAngleOf (q : Rot.t) : Quat :=
  SceneJS_math_angleAxisQuaternion
    (JS.or0 (Rot.x q)) (JS.or0 (Rot.y q)) (JS.or0 (Rot.z q))
    (JS.or0 (Rot.angle q)).

End Lifecycle.

(** ** Concrete scenes *)

Module Examples.

Import SpecMath.
Local Open Scope float_scope.

#[local] Existing Instance float_math.

(** Render data: the rotations injected into a render pass. *)
Definition Data : Type := list Rot.t.

Definition aboutX90 : Rot.t := Rot.axisAngle 1 0 0 90.
Definition aboutY90 : Rot.t := Rot.axisAngle 0 1 0 90.
Definition aboutZ45 : Rot.t := Rot.axisAngle 0 0 1 45.
Definition aboutX20 : Rot.t := Rot.axisAngle 1 0 0 20.

(** [{ z : 1 }]: a base rotation with no other field. *)
Definition onlyZ : Params.t :=
  Params.mk None None (Some 1) None None None None.

(** [{ x : 1 }]: an axis with no angle. *)
Definition axisOnly : Rot.t := Rot.mk (Some 1) None None None None.

(** The static configuration of the class comment. *)
Definition documented : Params.t :=
  Params.mk (Some 0) (Some 0) (Some 0) (Some 0) None
            (Some [aboutZ45; aboutX20; aboutY90]) None.

(** The dynamic configuration of the class comment. *)
Definition trackball : Config Data :=
  Dynamic (fun data => Params.mk None None None None None data None).

Definition root : Xform :=
  {| localMatrix := None; matrix := identity_mat4; fixed := true |}.

Definition scene : Env := {| transform := Some root; instancingFlag := false |}.

Definition instanced_scene : Env :=
  {| transform := Some root; instancingFlag := true |}.

Definition no_children : Children := fun e => JS.Normal e.

Definition failing_child : Children := fun e => JS.Throw e.

Definition static_node : Node Data :=
  Quaternion.SceneJS_Quaternion (Static documented).

Definition dynamic_node : Node Data :=
  Quaternion.SceneJS_Quaternion trackball.

(** The same node in the revision with a nested [q]. *)
Definition dynamic_node_q : Node Data :=
  QuaternionQ.SceneJS_Quaternion trackball.

End Examples.

(** ** Sequences of rotations *)

Section Accumulation.

Context {M : SceneJS_math}.

(** The [rotations] of a configuration, none when the field is absent. *)
Definition rotations_of (p : Params.t) : list Rot.t :=
  match Params.rotations p with
  | Some rs => rs
  | None => []
  end.

(** The quaternion a sequence of rotations builds on top of [q0]: each one
    multiplied on, as left operand, in the order of the sequence. *)
Definition accumulate (rs : list Rot.t) (q0 : Quat) : Quat :=
  fold_left (fun acc r => SceneJS_math_mulQuaternions (axisAngleOf r) acc) rs q0.

End Accumulation.

(** Whether a visit finds what the promotion to level 2 asks of the
    traversal: an ambient transform flagged fixed, and no instancing. *)
Definition promoting {M : SceneJS_math} (Data : Type) (v : Visit Data) : bool :=
  match getTransform (visit_env v) with
  | Some s => fixed s && negb (instancing (visit_env v))
  | None => false
  end.

(** ** Mouse handling of the examples *)

Module Mouse.

(** The fields of a mouse event the handlers read. *)
Record event : Type := mkEvent { clientX : float; clientY : float }.

(** What the canvas delivers to the registered listeners. *)
Inductive Event : Type :=
| Down (e : event)
| Move (e : event)
| Up.

(** The moves that arrive while a button is held, [held] telling whether one
    is at the start. *)
Fixpoint drag_moves (held : bool) (es : list Event) : nat :=
  match es with
  | [] => 0
  | Down _ :: es' => drag_moves true es'
  | Up :: es' => drag_moves false es'
  | Move _ :: es' => (if held then 1 else 0) + drag_moves held es'
  end.

Definition is_down (ev : Event) : bool :=
  match ev with
  | Down _ => true
  | _ => false
  end.

End Mouse.

(** src/tests/viewing/ortho/ortho.teapot.js, lines 123-161: the script's
    variables and its three listeners.  [rendered] lists the arguments of the
    calls of [exampleScene.render], the latest first. *)
Module OrthoTeapot.

Local Open Scope float_scope.

Record State : Type := mkState {
  yaw : float;
  pitch : float;
  lastX : JS.prop;
  lastY : JS.prop;
  dragging : bool;
  rendered : list (float * float)
}.

(** The variables as declared, and the first [exampleScene.render]. *)
Definition initial : State :=
  {| yaw := 0; pitch := 0; lastX := None; lastY := None; dragging := false;
     rendered := [(0, 0)] |}.

Definition mouseDown (e : Mouse.event) (s : State) : State :=
  {| yaw := yaw s; pitch := pitch s;
     lastX := Some (Mouse.clientX e); lastY := Some (Mouse.clientY e);
     dragging := true; rendered := rendered s |}.

Definition mouseUp (s : State) : State :=
  {| yaw := yaw s; pitch := pitch s; lastX := lastX s; lastY := lastY s;
     dragging := false; rendered := rendered s |}.

Definition mouseMove (e : Mouse.event) (s : State) : State :=
  if dragging s then
    let yaw' := yaw s + (Mouse.clientX e - JS.ToNumber (lastX s)) * 0.5 in
    let pitch' := pitch s + (Mouse.clientY e - JS.ToNumber (lastY s)) * -0.5 in
    {| yaw := yaw'; pitch := pitch';
       lastX := Some (Mouse.clientX e); lastY := Some (Mouse.clientY e);
       dragging := true; rendered := (yaw', pitch') :: rendered s |}
  else s.

Definition handle (s : State) (ev : Mouse.Event) : State :=
  match ev with
  | Mouse.Down e => mouseDown e s
  | Mouse.Move e => mouseMove e s
  | Mouse.Up => mouseUp s
  end.

Definition run (s : State) (es : list Mouse.Event) : State :=
  fold_left handle es s.

End OrthoTeapot.

(** src/examples/moving-point-light/moving-point-light.js, lines 184-235:
    the script's variables and its three listeners.  [issued] lists what the
    script asks of the scene, the latest first. *)
Module MovingPointLight.

Local Open Scope float_scope.

Inductive Command : Type :=
| Add_rotation (r : Rot.t)
| Render.

Record State : Type := mkState {
  rotx : float;
  roty : float;
  lastX : JS.prop;
  lastY : JS.prop;
  dragging : bool;
  issued : list Command
}.

(** The variables as declared, and the first render of the scene. *)
Definition initial : State :=
  {| rotx := 0; roty := 0; lastX := None; lastY := None; dragging := false;
     issued := [Render] |}.

Definition mouseDown (e : Mouse.event) (s : State) : State :=
  {| rotx := rotx s; roty := roty s;
     lastX := Some (Mouse.clientX e); lastY := Some (Mouse.clientY e);
     dragging := true; issued := issued s |}.

Definition mouseUp (s : State) : State :=
  {| rotx := rotx s; roty := roty s; lastX := lastX s; lastY := lastY s;
     dragging := false; issued := issued s |}.

Definition mouseMove (e : Mouse.event) (s : State) : State :=
  if dragging s then
    let roty' := Mouse.clientX e - JS.ToNumber (lastX s) in
    let rotx' := (Mouse.clientY e - JS.ToNumber (lastY s)) * -1 in
    let rotation :=
      if abs rotx' <? abs roty'
      then Rot.mk None (Some 1) None (Some roty') None
      else Rot.mk (Some 1) None None (Some rotx') None in
    {| rotx := rotx'; roty := roty';
       lastX := Some (Mouse.clientX e); lastY := Some (Mouse.clientY e);
       dragging := true;
       issued := Render :: Add_rotation rotation :: issued s |}
  else s.

Definition handle (s : State) (ev : Mouse.Event) : State :=
  match ev with
  | Mouse.Down e => mouseDown e s
  | Mouse.Move e => mouseMove e s
  | Mouse.Up => mouseUp s
  end.

Definition run (s : State) (es : list Mouse.Event) : State :=
  fold_left handle es s.

(** A rotation about the x axis alone or the y axis alone, by some angle. *)
Definition about_one_axis (r : Rot.t) : bool :=
  match Rot.x r, Rot.y r, Rot.z r, Rot.angle r, Rot.w r with
  | Some v, None, None, Some _, None => (v =? 1)
  | None, Some v, None, Some _, None => (v =? 1)
  | _, _, _, _, _ => false
  end.

(** The commands in the order they were issued come as one render, then
    pairs of a rotation about one axis and a render. *)
Fixpoint well_paired (latest_first : list Command) : bool :=
  match latest_first with
  | [Render] => true
  | Render :: Add_rotation r :: rest => about_one_axis r && well_paired rest
  | _ => false
  end.

End MovingPointLight.

(** The instancing demo (the script whose scene instances "my-box"), its
    mouse handling: the variables and the three listeners.  [issued] lists the
    [set("angle", v)] calls, the latest first, each with the node it was made
    on. *)
Module InstancingDemo.

Local Open Scope float_scope.

Inductive Target : Type :=
| Pitch_node
| Yaw_node.

Record State : Type := mkState {
  yaw : float;
  pitch : float;
  lastX : JS.prop;
  lastY : JS.prop;
  dragging : bool;
  issued : list (Target * float)
}.

Definition initial : State :=
  {| yaw := 30; pitch := -30; lastX := None; lastY := None; dragging := false;
     issued := [] |}.

Definition mouseDown (e : Mouse.event) (s : State) : State :=
  {| yaw := yaw s; pitch := pitch s;
     lastX := Some (Mouse.clientX e); lastY := Some (Mouse.clientY e);
     dragging := true; issued := issued s |}.

Definition mouseUp (s : State) : State :=
  {| yaw := yaw s; pitch := pitch s; lastX := lastX s; lastY := lastY s;
     dragging := false; issued := issued s |}.

Definition mouseMove (e : Mouse.event) (s : State) : State :=
  if dragging s then
    let yaw' := yaw s + (Mouse.clientX e - JS.ToNumber (lastX s)) * 0.5 in
    let pitch' := pitch s + (Mouse.clientY e - JS.ToNumber (lastY s)) * -0.5 in
    {| yaw := yaw'; pitch := pitch';
       lastX := Some (Mouse.clientX e); lastY := Some (Mouse.clientY e);
       dragging := true;
       issued := (Yaw_node, yaw') :: (Pitch_node, pitch') :: issued s |}
  else s.

Definition handle (s : State) (ev : Mouse.Event) : State :=
  match ev with
  | Mouse.Down e => mouseDown e s
  | Mouse.Move e => mouseMove e s
  | Mouse.Up => mouseUp s
  end.

Definition run (s : State) (es : list Mouse.Event) : State :=
  fold_left handle es s.

End InstancingDemo.

(** * Verification *)

(** ** Field lemmas *)

Section FieldLemmas.

Context {M : SceneJS_math}.
Variable Data : Type.

Implicit Types (n : Node Data) (q : Rot.t) (p : Params.t).

Lemma rotate_fields q n :
  _q (rotate q n) = SceneJS_math_mulQuaternions (axisAngleOf q) (_q n)
  /\ _memoLevel (rotate q n) = 0
  /\ _fixedParams (rotate q n) = _fixedParams n
  /\ _config (rotate q n) = _config n
  /\ _calls (rotate q n) = Call_rotate :: _calls n.
Proof. repeat split. Qed.

Lemma rotate_each_fixedParams rs : forall n,
  _fixedParams (rotate_each rs n) = _fixedParams n.
Proof.
  induction rs as [|r rs IH]; intro n; simpl; [reflexivity|].
  now rewrite IH.
Qed.

Lemma rotate_each_config rs : forall n,
  _config (rotate_each rs n) = _config n.
Proof.
  induction rs as [|r rs IH]; intro n; simpl; [reflexivity|].
  now rewrite IH.
Qed.

Lemma rotate_each_memoLevel rs : forall n,
  _memoLevel (rotate_each rs n) = match rs with [] => _memoLevel n | _ => 0 end.
Proof.
  induction rs as [|r rs IH]; intro n; simpl; [reflexivity|].
  rewrite IH. now destruct rs.
Qed.

Lemma rotate_each_calls c rs : forall n,
  c <> Call_rotate ->
  calls_of c (rotate_each rs n) = calls_of c n.
Proof.
  induction rs as [|r rs IH]; intros n Hc; simpl; [reflexivity|].
  rewrite IH by assumption. unfold calls_of.
  destruct (rotate_fields r n) as (_ & _ & _ & _ & ->).
  apply count_occ_cons_neq. congruence.
Qed.

Lemma rotate_each_memoLevel_0 rs n :
  _memoLevel n = 0 -> _memoLevel (rotate_each rs n) = 0.
Proof. intro H. rewrite rotate_each_memoLevel. now destruct rs. Qed.

Lemma Quaternion_init_ok : init_ok (@Quaternion._init M Data).
Proof.
  split; intros p n; unfold Quaternion._init;
    destruct (Quaternion.base_rotation_given p), (Params.rotations p);
    rewrite ?rotate_each_fixedParams, ?rotate_each_config; try reflexivity.
  all: try (intro H; try apply rotate_each_memoLevel_0; simpl; auto).
  all: rewrite rotate_each_calls by discriminate; reflexivity.
Qed.

Lemma QuaternionQ_init_ok : init_ok (@QuaternionQ._init M Data).
Proof.
  split; intros p n; unfold QuaternionQ._init, QuaternionQ.setRotation;
    destruct (Params.q p) as [q|], (Params.rotations p);
    rewrite ?rotate_each_fixedParams, ?rotate_each_config;
    try (destruct (Rot.w q)); try reflexivity.
  all: try (intro H; try apply rotate_each_memoLevel_0; simpl; auto).
  all: rewrite rotate_each_calls by discriminate; reflexivity.
Qed.

End FieldLemmas.

(** ** The render step, for any well-behaved [_init] *)

Section RenderLemmas.

Context {M : SceneJS_math}.
Variable Data : Type.
Variable init : Params.t -> Node Data -> Node Data.
Hypothesis Hinit : init_ok init.

Implicit Types (n : Node Data) (data : option Data) (env : Env).

Lemma render_local_fixedParams data n :
  _fixedParams (render_local init data n) = _fixedParams n.
Proof.
  unfold render_local.
  destruct (_memoLevel n =? 0); [|reflexivity].
  destruct (_fixedParams n) eqn:Hf; simpl; [assumption|].
  now rewrite (init_fixedParams Hinit).
Qed.

Lemma render_local_memoLevel data n :
  _memoLevel (render_local init data n) =
  if _memoLevel n =? 0
  then (if _fixedParams n then 1 else 0)
  else _memoLevel n.
Proof.
  unfold render_local.
  destruct (_memoLevel n =? 0) eqn:H0; [|reflexivity].
  apply Nat.eqb_eq in H0.
  destruct (_fixedParams n); simpl; [reflexivity|].
  now apply (init_dirty Hinit).
Qed.

Lemma render_local_static_q data n :
  _fixedParams n = true -> _q (render_local init data n) = _q n.
Proof.
  intro Hf. unfold render_local.
  destruct (_memoLevel n =? 0); [|reflexivity].
  now rewrite Hf.
Qed.

Lemma render_local_dirty_mat data n :
  _memoLevel n = 0 ->
  _mat (render_local init data n) =
  Some (SceneJS_math_newMat4FromQuaternion (_q (render_local init data n))).
Proof.
  intro H0. unfold render_local. rewrite H0. reflexivity.
Qed.

Lemma render_local_calls data n :
  calls_of Call_init (render_local init data n) =
  if (_memoLevel n =? 0) && negb (_fixedParams n)
  then S (calls_of Call_init n)
  else calls_of Call_init n.
Proof.
  unfold render_local.
  destruct (_memoLevel n =? 0); [|reflexivity].
  destruct (_fixedParams n); simpl; [reflexivity|].
  apply (init_logged Hinit).
Qed.

Lemma render_local_mat data n :
  consistent n ->
  _memoLevel n < 2 ->
  _mat (render_local init data n) =
  Some (SceneJS_math_newMat4FromQuaternion (_q (render_local init data n))).
Proof.
  intros (_ & _ & Hmat & _) Hlt.
  destruct (_memoLevel n) as [|l] eqn:Hl.
  - now apply render_local_dirty_mat.
  - unfold render_local. rewrite Hl. simpl. apply Hmat. lia.
Qed.

(** The composing step leaves everything but the composed transform and
    the level alone. *)
Lemma render_compose_keeps t inst n :
  let n' := JS.state_of (render_compose t inst n) in
  _fixedParams n' = _fixedParams n /\ _q n' = _q n /\ _mat n' = _mat n
  /\ _calls n' = _calls n /\ _config n' = _config n.
Proof.
  unfold render_compose.
  destruct (_memoLevel n <? 2); [|simpl; tauto].
  destruct t as [s|], (_mat n) as [m|] eqn:Hm; simpl; try tauto.
  destruct ((_memoLevel n =? 1) && fixed s && negb inst); simpl; tauto.
Qed.

Lemma render_compose_memoLevel t inst n :
  _memoLevel (JS.state_of (render_compose t inst n)) =
  match t, _mat n with
  | Some s, Some _ =>
      if (_memoLevel n =? 1) && fixed s && negb inst then 2 else _memoLevel n
  | _, _ => _memoLevel n
  end.
Proof.
  unfold render_compose.
  destruct (_memoLevel n <? 2) eqn:Hlt.
  - destruct t as [s|], (_mat n) as [m|]; simpl; try reflexivity.
    destruct ((_memoLevel n =? 1) && fixed s && negb inst); reflexivity.
  - apply Nat.ltb_ge in Hlt.
    assert ((_memoLevel n =? 1) = false) as -> by (apply Nat.eqb_neq; lia).
    destruct t, (_mat n); reflexivity.
Qed.

(** The node a visit leaves behind is the one the composing step built:
    the children do not touch it. *)
Lemma render_with_node n data kids env :
  fst (JS.state_of (render_with init n data kids env)) =
  JS.state_of (render_compose (getTransform env) (instancing env)
                              (render_local init data n)).
Proof.
  unfold render_with.
  destruct (render_compose _ _ _); simpl; [|reflexivity].
  destruct (kids _); reflexivity.
Qed.


Lemma visit_memoLevel_instancing n v :
  _memoLevel n <= 1 ->
  instancing (visit_env v) = true ->
  _memoLevel (visit (render_with init) n v) <= 1.
Proof.
  intros Hle Hinst. unfold visit.
  rewrite render_with_node, render_compose_memoLevel, Hinst.
  rewrite render_local_memoLevel.
  assert (forall b l, (if b && negb true then 2 else l) = l) as Hno
      by (intros b l; now rewrite andb_false_r).
  destruct (getTransform (visit_env v));
    destruct (_mat (render_local init (visit_data v) n)); rewrite ?Hno;
    destruct (_memoLevel n =? 0), (_fixedParams n); lia.
Qed.

Lemma render_visits_memoLevel_instancing vs : forall n,
  _memoLevel n <= 1 ->
  Forall (fun v => instancing (visit_env v) = true) vs ->
  _memoLevel (render_visits (render_with init) n vs) <= 1.
Proof.
  induction vs as [|v vs IH]; intros n Hle Hall; simpl; [assumption|].
  inversion Hall as [|? ? Hv Hvs]; subst.
  apply IH; [|assumption].
  now apply visit_memoLevel_instancing.
Qed.

End RenderLemmas.

Lemma Forall_firstn_keep (A : Type) (P : A -> Prop) (l : list A) : forall k,
  Forall P l -> Forall P (firstn k l).
Proof.
  induction l as [|a l IH]; intros [|k] H; simpl; auto.
  inversion H; subst. constructor; auto.
Qed.

(** ** Construction *)

Section Construction.

Context {M : SceneJS_math}.
Variable Data : Type.

Lemma constructed_dirty (cfg : Config Data) :
  _memoLevel (Quaternion.SceneJS_Quaternion cfg) = 0.
Proof.
  unfold Quaternion.SceneJS_Quaternion. destruct cfg as [p|f]; simpl; [|reflexivity].
  now apply (init_dirty (Quaternion_init_ok Data)).
Qed.

Lemma constructed_fixedParams (cfg : Config Data) :
  _fixedParams (Quaternion.SceneJS_Quaternion cfg) =
  match cfg with Static _ => true | Dynamic _ => false end.
Proof.
  unfold Quaternion.SceneJS_Quaternion. destruct cfg as [p|f]; simpl; [|reflexivity].
  now rewrite (init_fixedParams (Quaternion_init_ok Data)).
Qed.

Lemma constructed_init_calls (cfg : Config Data) :
  calls_of Call_init (Quaternion.SceneJS_Quaternion cfg) =
  match cfg with Static _ => 1 | Dynamic _ => 0 end.
Proof.
  unfold Quaternion.SceneJS_Quaternion. destruct cfg as [p|f]; simpl; [|reflexivity].
  now rewrite (init_logged (Quaternion_init_ok Data)).
Qed.

End Construction.

(** ** The claims *)

Section Claims.

Context {M : SceneJS_math}.
Variable Data : Type.

Implicit Types (n : Node Data) (data : option Data) (env : Env).


(** C2.  From construction on, over any sequence of render visits that all
    find [instancing()] true, the memoisation level is at most 1 after every
    visit of the sequence, whatever the configuration (static or dynamic),
    the ambient transforms and the children. *)
Theorem memoLevel_instancing_never_exceeds_1
        (cfg : Config Data) (vs : list (Visit Data)) (k : nat) :
  Forall (fun v => instancing (visit_env v) = true) vs ->
  _memoLevel (render_visits (@Quaternion._render M Data)
                            (Quaternion.SceneJS_Quaternion cfg)
                            (firstn k vs)) <= 1.
Proof.
  intro Hall.
  apply (render_visits_memoLevel_instancing (Quaternion_init_ok Data)).
  - rewrite constructed_dirty. lia.
  - now apply Forall_firstn_keep.
Qed.

End Claims.


Lemma memoLevel_instancing_never_exceeds_1_witness :
  let v := mkVisit None Examples.no_children Examples.instanced_scene in
  _memoLevel (render_visits (@Quaternion._render SpecMath.float_math Examples.Data)
                            Examples.static_node
                            (firstn 3 [v; v; v; v])) <= 1.
Proof.
  intro v.
  apply (@memoLevel_instancing_never_exceeds_1 SpecMath.float_math Examples.Data
           (Static Examples.documented) [v; v; v; v] 3).
  repeat constructor.
Defined.

(** ** The cache invariant *)

Section CacheInvariant.

Context {M : SceneJS_math}.
Variable Data : Type.
Variable init : Params.t -> Node Data -> Node Data.
Hypothesis Hinit : init_ok init.

Implicit Types (n : Node Data) (data : option Data) (env : Env).

Lemma dirty_consistent n : _memoLevel n = 0 -> consistent n.
Proof.
  intro H0. unfold consistent. rewrite H0.
  repeat split; intros; try lia; discriminate.
Qed.

Lemma render_compose_below_2 (s : Xform) (m : Mat4) inst n :
  _memoLevel n < 2 ->
  _mat n = Some m ->
  render_compose (Some s) inst n =
  JS.Normal
    (let n' := set_xform
                 (Some {| localMatrix := Some m;
                          matrix := SceneJS_math_mulMat4 (matrix s) m;
                          fixed := fixed s && _fixedParams n && negb inst |}) n in
     if (_memoLevel n =? 1) && fixed s && negb inst
     then set_memoLevel 2 n'
     else n').
Proof.
  intros Hlt Hm. unfold render_compose.
  apply Nat.ltb_lt in Hlt. rewrite Hlt, Hm. reflexivity.
Qed.

Lemma render_compose_at_2 t inst n :
  2 <= _memoLevel n -> render_compose t inst n = JS.Normal n.
Proof.
  intro Hge. unfold render_compose.
  apply Nat.ltb_ge in Hge. now rewrite Hge.
Qed.

(** From level 2 on the render step goes straight to publishing: the
    children are entered with the cached composed transform installed by
    [setTransform], and the ambient one is put back when they return. *)
Lemma cached_render_with n data (kids : Children) env :
  2 <= _memoLevel n ->
  render_with init n data kids env =
  match kids (setTransform (_xform n) env) with
  | JS.Throw env' => JS.Throw (n, env')
  | JS.Normal env' => JS.Normal (n, setTransform (getTransform env) env')
  end.
Proof.
  intro Hge.
  assert (render_local init data n = n) as Hl.
  { unfold render_local. destruct (_memoLevel n) eqn:E; [lia|reflexivity]. }
  unfold render_with. rewrite Hl, render_compose_at_2 by assumption.
  reflexivity.
Qed.

Lemma render_local_consistent data n :
  consistent n -> consistent (render_local init data n).
Proof.
  intro Hc.
  destruct (_memoLevel n) as [|l] eqn:Hl.
  - pose proof (render_local_memoLevel Hinit data n) as Hlev.
    pose proof (render_local_dirty_mat init data n Hl) as Hmat.
    pose proof (render_local_fixedParams Hinit data n) as Hf.
    rewrite Hl in Hlev; simpl in Hlev.
    unfold consistent. rewrite Hlev, Hf.
    destruct (_fixedParams n); repeat split; intros; try lia;
      try discriminate; assumption.
  - unfold render_local. rewrite Hl. exact Hc.
Qed.

Lemma render_compose_consistent t inst n :
  consistent n -> consistent (JS.state_of (render_compose t inst n)).
Proof.
  intros Hc. pose proof Hc as (Hle & Hdyn & Hmat & Hx).
  destruct (Nat.lt_ge_cases (_memoLevel n) 2) as [Hlt|Hge].
  2:{ rewrite render_compose_at_2 by assumption. exact Hc. }
  destruct t as [s|]; [|unfold render_compose; apply Nat.ltb_lt in Hlt;
                         rewrite Hlt; exact Hc].
  destruct (_mat n) as [m|] eqn:Hm;
    [|unfold render_compose; apply Nat.ltb_lt in Hlt;
      rewrite Hlt, Hm; exact Hc].
  rewrite (@render_compose_below_2 s m inst n Hlt Hm). simpl.
  destruct (_memoLevel n =? 1) eqn:H1; simpl.
  - apply Nat.eqb_eq in H1.
    assert (_fixedParams n = true) as Hf
        by (destruct (_fixedParams n); [reflexivity|]; specialize (Hdyn eq_refl); lia).
    assert (m = SceneJS_math_newMat4FromQuaternion (_q n)) as ->
        by (specialize (Hmat ltac:(lia)); congruence).
    destruct (fixed s && negb inst) eqn:Hsi; simpl.
    + repeat split; simpl; intros; try lia; try congruence.
      exists (matrix s). rewrite Hf.
      replace (fixed s && true && negb inst) with true; [reflexivity|].
      now rewrite andb_true_r.
    + repeat split; simpl; intros; try lia; try congruence; auto.
  - apply Nat.eqb_neq in H1.
    repeat split; simpl; intros; try lia; auto.
Qed.

Lemma visit_consistent n (v : Visit Data) :
  consistent n -> consistent (visit (render_with init) n v).
Proof.
  intro Hc. unfold visit. rewrite render_with_node.
  now apply render_compose_consistent, render_local_consistent.
Qed.

End CacheInvariant.

Lemma mutate_dirty {M : SceneJS_math} (Data : Type)
      (mu : Mutation) (n : Node Data) :
  _memoLevel (mutate mu n) = 0.
Proof. destruct mu; reflexivity. Qed.

(** Every state a node of quaternion.js can be in, from its construction
    through visits and mutator calls, has consistent caches. *)
Lemma run_consistent {M : SceneJS_math} (Data : Type)
      (cfg : Config Data) (sts : list (Step Data)) :
  consistent (run (Quaternion.SceneJS_Quaternion cfg) sts).
Proof.
  unfold run.
  assert (consistent (Quaternion.SceneJS_Quaternion cfg)) as Hc
      by (apply dirty_consistent, constructed_dirty).
  revert Hc. generalize (Quaternion.SceneJS_Quaternion cfg).
  induction sts as [|st sts IH]; intros n Hc; simpl; [exact Hc|].
  apply IH. destruct st as [v|mu]; simpl.
  - apply (visit_consistent (Quaternion_init_ok Data)), Hc.
  - apply dirty_consistent, mutate_dirty.
Qed.

Section MemoisationClaims.

Context {M : SceneJS_math}.
Variable Data : Type.

Implicit Types (n : Node Data) (data : option Data) (env : Env).

(** The children are entered with the published transform installed. *)
Lemma render_with_publishes n data (kids : Children) env :
  JS.returns (render_compose (getTransform env) (instancing env)
                             (render_local (@Quaternion._init M Data) data n)) = true ->
  Quaternion._render n data kids env =
  let n' := JS.state_of (render_compose (getTransform env) (instancing env)
                                        (render_local (@Quaternion._init M Data) data n)) in
  match kids (setTransform (published (@Quaternion._init M Data) n data env) env) with
  | JS.Throw env' => JS.Throw (n', env')
  | JS.Normal env' => JS.Normal (n', setTransform (getTransform env) env')
  end.
Proof.
  unfold Quaternion._render, render_with, published.
  destruct (render_compose _ _ _); simpl; [reflexivity|discriminate].
Qed.

(** Below level 2 the composing step rebuilds the composed transform. *)
Lemma render_rebuilds_below_2 n data (s : Xform) (inst : bool) :
  consistent n ->
  _memoLevel n < 2 ->
  let env := {| transform := Some s; instancingFlag := inst |} in
  let n1 := render_local (@Quaternion._init M Data) data n in
  let localMat := SceneJS_math_newMat4FromQuaternion (_q n1) in
  let newFixed := fixed s && _fixedParams n && negb inst in
  let n2 := JS.state_of (render_compose (getTransform env) (instancing env) n1) in
  (forall kids, fst (JS.state_of (Quaternion._render n data kids env)) = n2)
  /\ JS.returns (render_compose (getTransform env) (instancing env) n1) = true
  /\ _xform n2 = Some {| localMatrix := Some localMat;
                         matrix := SceneJS_math_mulMat4 (matrix s) localMat;
                         fixed := newFixed |}
  /\ published (@Quaternion._init M Data) n data env = _xform n2
  /\ _memoLevel n2 = (if (_memoLevel n1 =? 1) && newFixed then 2 else _memoLevel n1)
  /\ (_memoLevel n2 = 2 <-> _memoLevel n1 = 1 /\ newFixed = true).
Proof.
  intros Hc Hlt env n1 localMat newFixed n2.
  pose proof (render_local_mat (@Quaternion._init M Data) data Hc Hlt) as Hmat.
  pose proof (render_local_memoLevel (Quaternion_init_ok Data) data n) as Hlev.
  pose proof (render_local_fixedParams (Quaternion_init_ok Data) data n) as Hfp.
  pose proof (render_local_consistent (Quaternion_init_ok Data) data Hc) as (_ & Hdyn & _ & _).
  fold n1 in Hmat, Hlev, Hfp, Hdyn. fold localMat in Hmat.
  assert (_memoLevel n1 < 2) as Hlt1
      by (rewrite Hlev; destruct (_memoLevel n =? 0), (_fixedParams n); lia).
  assert ((_memoLevel n1 =? 1) && fixed s && negb inst
          = (_memoLevel n1 =? 1) && newFixed) as Hguard.
  { unfold newFixed. rewrite <- Hfp.
    destruct (_memoLevel n1 =? 1) eqn:H1; [|reflexivity].
    apply Nat.eqb_eq in H1.
    destruct (_fixedParams n1); [|specialize (Hdyn eq_refl); lia].
    simpl. now rewrite andb_true_r. }
  assert (n2 = (let n' := set_xform
                            (Some {| localMatrix := Some localMat;
                                     matrix := SceneJS_math_mulMat4 (matrix s) localMat;
                                     fixed := newFixed |}) n1 in
                if (_memoLevel n1 =? 1) && newFixed
                then set_memoLevel 2 n' else n')) as Hn2.
  { unfold n2, env, getTransform, instancing; simpl.
    rewrite (@render_compose_below_2 M Data s localMat inst n1 Hlt1 Hmat).
    simpl. rewrite Hguard. unfold newFixed. now rewrite Hfp. }
  assert (JS.returns (render_compose (getTransform env) (instancing env) n1) = true)
    as Hret.
  { unfold env, getTransform, instancing; simpl.
    now rewrite (@render_compose_below_2 M Data s localMat inst n1 Hlt1 Hmat). }
  split; [|split; [|split; [|split; [|split]]]].
  - intro kids. unfold Quaternion._render. now rewrite render_with_node.
  - exact Hret.
  - rewrite Hn2. simpl. now destruct ((_memoLevel n1 =? 1) && newFixed).
  - reflexivity.
  - rewrite Hn2. simpl. now destruct ((_memoLevel n1 =? 1) && newFixed).
  - rewrite Hn2. simpl.
    destruct (_memoLevel n1 =? 1) eqn:H1; simpl.
    + apply Nat.eqb_eq in H1. destruct newFixed; simpl; split; intros; try lia; tauto.
    + apply Nat.eqb_neq in H1. simpl. split; intros; [lia|tauto].
Qed.

(** C4.  On a render visit entered below level 2 (by a node whose caches
    are consistent, with an ambient transform [s] on the matrix stack), the
    composed transform is rebuilt as the record of the local matrix, the
    product of the ambient matrix with it, and the flag
    [superFixed && fixedParams && !instancing]; that record is what the visit
    publishes.  With [n1] the node as the composing step finds it (after the
    local step, which may just have marked a static node level 1), the level
    ends at 2 exactly when it was 1 there and the new flag is true, and is
    otherwise left as it was. *)
Theorem render_recomputes_composed_transform n data (s : Xform) (inst : bool) :
  consistent n ->
  _memoLevel n < 2 ->
  let env := {| transform := Some s; instancingFlag := inst |} in
  let n1 := render_local (@Quaternion._init M Data) data n in
  let localMat := SceneJS_math_newMat4FromQuaternion (_q n1) in
  let newFixed := fixed s && _fixedParams n && negb inst in
  let n2 := JS.state_of (render_compose (getTransform env) (instancing env) n1) in
  (forall kids, fst (JS.state_of (Quaternion._render n data kids env)) = n2)
  /\ JS.returns (render_compose (getTransform env) (instancing env) n1) = true
  /\ _xform n2 = Some {| localMatrix := Some localMat;
                         matrix := SceneJS_math_mulMat4 (matrix s) localMat;
                         fixed := newFixed |}
  /\ published (@Quaternion._init M Data) n data env = _xform n2
  /\ _memoLevel n2 = (if (_memoLevel n1 =? 1) && newFixed then 2 else _memoLevel n1)
  /\ (_memoLevel n2 = 2 <-> _memoLevel n1 = 1 /\ newFixed = true).
Proof.
  intros Hc Hlt. exact (@render_rebuilds_below_2 n data s inst Hc Hlt).
Qed.

End MemoisationClaims.

Section MemoisedVisits.

Context {M : SceneJS_math}.
Variable Data : Type.

Implicit Types (n : Node Data) (data : option Data) (env : Env).

(** A static node below level 2 leaves a visit under a fixed ambient
    transform at level 2, with the composed transform cached. *)
Lemma static_visit_caches n (a : Mat4) (l : option Mat4) data (kids : Children) :
  consistent n ->
  _fixedParams n = true ->
  _memoLevel n < 2 ->
  let n1 := visit (@Quaternion._render M Data) n
                  (mkVisit data kids (fixed_ambient a l)) in
  _memoLevel n1 = 2
  /\ _q n1 = _q n
  /\ _xform n1 =
     Some {| localMatrix := Some (SceneJS_math_newMat4FromQuaternion (_q n));
             matrix := SceneJS_math_mulMat4 a
                         (SceneJS_math_newMat4FromQuaternion (_q n));
             fixed := true |}.
Proof.
  intros Hc Hf Hlt n1.
  pose proof (render_local_mat (@Quaternion._init M Data) data Hc Hlt) as Hmat.
  pose proof (render_local_memoLevel (Quaternion_init_ok Data) data n) as Hlev.
  pose proof (render_local_fixedParams (Quaternion_init_ok Data) data n) as Hfp.
  pose proof (render_local_static_q (@Quaternion._init M Data) data n Hf) as Hq.
  rewrite Hf in Hlev, Hfp. rewrite Hq in Hmat.
  assert (_memoLevel (render_local (@Quaternion._init M Data) data n) = 1) as H1.
  { rewrite Hlev. clear - Hlt. destruct (_memoLevel n) as [|[|k]]; simpl; lia. }
  assert (_memoLevel (render_local (@Quaternion._init M Data) data n) < 2) as Hlt1
      by (rewrite H1; lia).
  assert (n1 = JS.state_of
                 (render_compose (getTransform (fixed_ambient a l))
                                 (instancing (fixed_ambient a l))
                                 (render_local (@Quaternion._init M Data) data n)))
    as Hn1 by (unfold n1, visit, Quaternion._render; now rewrite render_with_node).
  unfold fixed_ambient, getTransform, instancing in Hn1; simpl in Hn1.
  rewrite (@render_compose_below_2 M Data _ _ false _ Hlt1 Hmat) in Hn1.
  rewrite H1, Hfp in Hn1. simpl in Hn1.
  rewrite Hn1. simpl. now rewrite Hq.
Qed.

(** At level 2 a visit changes nothing in the node and publishes the cached
    transform. *)
Lemma cached_visit n (v : Visit Data) :
  _memoLevel n = 2 ->
  visit (@Quaternion._render M Data) n v = n
  /\ published (@Quaternion._init M Data) n (visit_data v) (visit_env v) = _xform n.
Proof.
  intro H2.
  assert (render_local (@Quaternion._init M Data) (visit_data v) n = n) as Hl
      by (unfold render_local; now rewrite H2).
  split.
  - unfold visit, Quaternion._render.
    rewrite render_with_node, Hl, render_compose_at_2 by lia. reflexivity.
  - unfold published. rewrite Hl, render_compose_at_2 by lia. reflexivity.
Qed.

(** C3.  Take a static node below level 2 with consistent caches (a node
    just constructed or just mutated is one), and visit it twice under a
    fixed ambient transform of matrix [a], without instancing.  After the
    two visits the level is 2, and the transform the second visit publishes
    is, field by field, the one recomputation gives: the matrix of the
    node's quaternion as local matrix, and the product of [a] with it as
    composed matrix.  Publishing is read off [_render] itself: on both
    visits the render step enters the children with exactly that transform
    installed by [setTransform], and puts the ambient one back when they
    return.  (The level is 2 after the first visit already.) *)
Theorem second_visit_publishes_recomputed_matrix
        n (a : Mat4) (l1 l2 : option Mat4) (d1 d2 : option Data)
        (kids1 kids2 : Children) :
  consistent n ->
  _fixedParams n = true ->
  _memoLevel n < 2 ->
  let v1 := mkVisit d1 kids1 (fixed_ambient a l1) in
  let v2 := mkVisit d2 kids2 (fixed_ambient a l2) in
  let n1 := visit (@Quaternion._render M Data) n v1 in
  let n2 := visit (@Quaternion._render M Data) n1 v2 in
  let recomputed :=
    {| localMatrix := Some (SceneJS_math_newMat4FromQuaternion (_q n));
       matrix := SceneJS_math_mulMat4 a
                   (SceneJS_math_newMat4FromQuaternion (_q n));
       fixed := true |} in
  _memoLevel n2 = 2
  /\ published (@Quaternion._init M Data) n1 d2 (fixed_ambient a l2) =
     Some {| localMatrix := Some (SceneJS_math_newMat4FromQuaternion (_q n));
             matrix := SceneJS_math_mulMat4 a
                         (SceneJS_math_newMat4FromQuaternion (_q n));
             fixed := true |}
  /\ _q n2 = _q n
  /\ _memoLevel n1 = 2
  /\ Quaternion._render n1 d2 kids2 (fixed_ambient a l2) =
     match kids2 (setTransform (Some recomputed) (fixed_ambient a l2)) with
     | JS.Throw env' => JS.Throw (n1, env')
     | JS.Normal env' =>
         JS.Normal (n1, setTransform (getTransform (fixed_ambient a l2)) env')
     end
  /\ Quaternion._render n d1 kids1 (fixed_ambient a l1) =
     match kids1 (setTransform (Some recomputed) (fixed_ambient a l1)) with
     | JS.Throw env' => JS.Throw (n1, env')
     | JS.Normal env' =>
         JS.Normal (n1, setTransform (getTransform (fixed_ambient a l1)) env')
     end.
Proof.
  intros Hc Hf Hlt v1 v2 n1 n2 recomputed.
  destruct (@static_visit_caches n a l1 d1 kids1 Hc Hf Hlt) as (H2 & Hq & Hx).
  fold v1 in H2, Hq, Hx. fold n1 in H2, Hq, Hx. fold recomputed in Hx.
  destruct (@cached_visit n1 v2 H2) as (Hsame & Hpub).
  fold n2 in Hsame. simpl in Hpub.
  assert (Quaternion._render n1 d2 kids2 (fixed_ambient a l2) =
          match kids2 (setTransform (Some recomputed) (fixed_ambient a l2)) with
          | JS.Throw env' => JS.Throw (n1, env')
          | JS.Normal env' =>
              JS.Normal (n1, setTransform (getTransform (fixed_ambient a l2)) env')
          end) as Hsecond.
  { unfold Quaternion._render.
    rewrite (@cached_render_with M Data (@Quaternion._init M Data) n1 d2 kids2
               (fixed_ambient a l2)) by lia.
    now rewrite Hx. }
  assert (Quaternion._render n d1 kids1 (fixed_ambient a l1) =
          match kids1 (setTransform (Some recomputed) (fixed_ambient a l1)) with
          | JS.Throw env' => JS.Throw (n1, env')
          | JS.Normal env' =>
              JS.Normal (n1, setTransform (getTransform (fixed_ambient a l1)) env')
          end) as Hfirst.
  { destruct (@render_rebuilds_below_2 M Data n d1
                {| localMatrix := l1; matrix := a; fixed := true |} false Hc Hlt)
      as (Hnode & Hret & _ & Hpub1 & _).
    change {| transform := Some {| localMatrix := l1; matrix := a; fixed := true |};
              instancingFlag := false |}
      with (fixed_ambient a l1) in Hnode, Hret, Hpub1.
    pose proof (Hnode kids1) as Hn1. fold (visit (@Quaternion._render M Data) n v1) in Hn1.
    rewrite (@render_with_publishes M Data n d1 kids1 (fixed_ambient a l1) Hret).
    cbv zeta. rewrite Hpub1.
    change (fst (JS.state_of (Quaternion._render n d1 kids1 (fixed_ambient a l1))))
      with n1 in Hn1.
    rewrite <- Hn1, Hx. reflexivity. }
  rewrite Hsame, Hpub, Hx. repeat split; auto.
Qed.

End MemoisedVisits.

Lemma render_recomputes_composed_transform_witness :
  let n2 := fst (JS.state_of (Quaternion._render Examples.static_node None
                                                 Examples.no_children Examples.scene)) in
  _memoLevel n2 = 2
  /\ option_map (@fixed SpecMath.float_math) (_xform n2) = Some true.
Proof.
  assert (consistent Examples.static_node) as Hc
      by (apply dirty_consistent; reflexivity).
  assert (_memoLevel Examples.static_node < 2) as Hlt
      by (vm_compute; repeat constructor).
  destruct (@render_recomputes_composed_transform
              SpecMath.float_math Examples.Data Examples.static_node None
              Examples.root false Hc Hlt)
    as (Hnode & _ & Hx & _ & _ & Hiff).
  cbv zeta. unfold Examples.scene. rewrite (Hnode Examples.no_children). split.
  - apply Hiff. split; reflexivity.
  - rewrite Hx. reflexivity.
Defined.

Lemma second_visit_publishes_recomputed_matrix_witness :
  let v := mkVisit None Examples.no_children
                   (@fixed_ambient SpecMath.float_math SpecMath.identity_mat4 None) in
  let n1 := visit (@Quaternion._render SpecMath.float_math Examples.Data)
                  Examples.static_node v in
  _memoLevel (visit (@Quaternion._render SpecMath.float_math Examples.Data) n1 v) = 2
  /\ option_map (@matrix SpecMath.float_math)
                (published (@Quaternion._init SpecMath.float_math Examples.Data)
                           n1 None (@fixed_ambient SpecMath.float_math SpecMath.identity_mat4 None))
     = Some (SpecMath.mulMat4 SpecMath.identity_mat4
                              (getMatrix Examples.static_node)).
Proof.
  assert (consistent Examples.static_node) as Hc
      by (apply dirty_consistent; reflexivity).
  assert (_fixedParams Examples.static_node = true) as Hf by reflexivity.
  assert (_memoLevel Examples.static_node < 2) as Hlt
      by (vm_compute; repeat constructor).
  destruct (@second_visit_publishes_recomputed_matrix
              SpecMath.float_math Examples.Data Examples.static_node
              SpecMath.identity_mat4 None None None None
              Examples.no_children Examples.no_children Hc Hf Hlt)
    as (H2 & Hpub & _ & _).
  cbv zeta. split; [exact H2|]. rewrite Hpub. reflexivity.
Defined.

(** ** Visits of static and of dynamic nodes *)

Section VisitCounts.

Context {M : SceneJS_math}.
Variable Data : Type.
Variable init : Params.t -> Node Data -> Node Data.
Hypothesis Hinit : init_ok init.

Implicit Types (n : Node Data) (v : Visit Data).

Lemma visit_fixedParams n v :
  _fixedParams (visit (render_with init) n v) = _fixedParams n.
Proof.
  unfold visit. rewrite render_with_node.
  destruct (render_compose_keeps (getTransform (visit_env v))
              (instancing (visit_env v))
              (render_local init (visit_data v) n)) as (-> & _).
  apply (render_local_fixedParams Hinit).
Qed.

Lemma visit_init_calls n v :
  calls_of Call_init (visit (render_with init) n v) =
  if (_memoLevel n =? 0) && negb (_fixedParams n)
  then S (calls_of Call_init n)
  else calls_of Call_init n.
Proof.
  unfold visit. rewrite render_with_node.
  destruct (render_compose_keeps (getTransform (visit_env v))
              (instancing (visit_env v))
              (render_local init (visit_data v) n)) as (_ & _ & _ & Hcalls & _).
  unfold calls_of at 1. rewrite Hcalls.
  apply (render_local_calls Hinit).
Qed.

Lemma visit_dynamic_stays_dirty n v :
  _fixedParams n = false ->
  _memoLevel n = 0 ->
  _memoLevel (visit (render_with init) n v) = 0.
Proof.
  intros Hf H0. unfold visit.
  rewrite render_with_node, render_compose_memoLevel.
  rewrite (render_local_memoLevel Hinit), H0, Hf. simpl.
  destruct (getTransform (visit_env v));
    destruct (_mat (render_local init (visit_data v) n)); reflexivity.
Qed.

Lemma static_visits_never_init vs : forall n,
  _fixedParams n = true ->
  calls_of Call_init (render_visits (render_with init) n vs) = calls_of Call_init n.
Proof.
  induction vs as [|v vs IH]; intros n Hf; simpl; [reflexivity|].
  rewrite IH by (now rewrite visit_fixedParams).
  rewrite visit_init_calls, Hf. now rewrite andb_false_r.
Qed.

Lemma dynamic_visits_always_init vs : forall n,
  _fixedParams n = false ->
  _memoLevel n = 0 ->
  _memoLevel (render_visits (render_with init) n vs) = 0
  /\ calls_of Call_init (render_visits (render_with init) n vs)
     = length vs + calls_of Call_init n.
Proof.
  induction vs as [|v vs IH]; intros n Hf H0; simpl; [now split|].
  destruct (IH (visit (render_with init) n v)) as (Hl & Hc).
  - now rewrite visit_fixedParams.
  - now apply visit_dynamic_stays_dirty.
  - split; [exact Hl|].
    rewrite Hc, visit_init_calls, H0, Hf. simpl. lia.
Qed.

End VisitCounts.

Section NodeClaims.

Context {M : SceneJS_math}.
Variable Data : Type.

Implicit Types (n : Node Data) (data : option Data) (q : Rot.t).

(** C5.  [rotate(q)] accumulates: the node's quaternion becomes the product
    of the rotation made from [q] (each of x, y, z and angle read with
    [|| 0]), as left operand, with the current quaternion, and the level is
    reset to 0.  So from the identity quaternion [rotate(a)] then [rotate(b)]
    leaves the product written [fromAxisAngle(b) * (fromAxisAngle(a) * identity)],
    the later rotation leftmost; and whenever the two products differ, so do
    the quaternions the two orders of calls leave. *)
Theorem rotate_accumulates (a b : Rot.t) n :
  (_q (rotate a n) =
   SceneJS_math_mulQuaternions
     (SceneJS_math_angleAxisQuaternion
        (JS.or0 (Rot.x a)) (JS.or0 (Rot.y a)) (JS.or0 (Rot.z a))
        (JS.or0 (Rot.angle a)))
     (_q n)
   /\ _memoLevel (rotate a n) = 0)
  /\ (_q n = SceneJS_math_identityQuaternion ->
      _q (rotate b (rotate a n)) =
      SceneJS_math_mulQuaternions
        (axisAngleOf b)
        (SceneJS_math_mulQuaternions (axisAngleOf a)
                                     SceneJS_math_identityQuaternion))
  /\ (SceneJS_math_mulQuaternions
        (axisAngleOf b) (SceneJS_math_mulQuaternions (axisAngleOf a) (_q n))
      <> SceneJS_math_mulQuaternions
           (axisAngleOf a) (SceneJS_math_mulQuaternions (axisAngleOf b) (_q n)) ->
      _q (rotate b (rotate a n)) <> _q (rotate a (rotate b n))).
Proof.
  split; [split; reflexivity|]. split.
  - intro Hid.
    destruct (rotate_fields b (rotate a n)) as (-> & _).
    destruct (rotate_fields a n) as (-> & _).
    now rewrite Hid.
  - intros Hne.
    destruct (rotate_fields b (rotate a n)) as (-> & _).
    destruct (rotate_fields a (rotate b n)) as (-> & _).
    destruct (rotate_fields a n) as (-> & _).
    destruct (rotate_fields b n) as (-> & _).
    exact Hne.
Qed.

(** C7 (as amended).  A static node runs [_init] exactly once, in its
    constructor, which leaves it at level 0; its first render visit marks it
    level 1 directly, without running [_init], and no later visit runs it
    either.  A dynamic node is constructed at level 0 without running
    [_init]; every visit finds it at level 0, runs [_init] once and leaves it
    at level 0. *)
Theorem init_once_if_static_every_visit_if_dynamic
        (p : Params.t) (f : option Data -> Params.t)
        (vs : list (Visit Data)) data :
  (let n := Quaternion.SceneJS_Quaternion (Static p) in
   calls_of Call_init n = 1
   /\ _memoLevel n = 0
   /\ _memoLevel (render_local (@Quaternion._init M Data) data n) = 1
   /\ calls_of Call_init (render_local (@Quaternion._init M Data) data n) = 1
   /\ calls_of Call_init (render_visits (@Quaternion._render M Data) n vs) = 1)
  /\
  (let n := Quaternion.SceneJS_Quaternion (Dynamic f) in
   calls_of Call_init n = 0
   /\ _memoLevel n = 0
   /\ _memoLevel (render_visits (@Quaternion._render M Data) n vs) = 0
   /\ calls_of Call_init (render_visits (@Quaternion._render M Data) n vs)
      = length vs).
Proof.
  split; cbv zeta.
  - pose proof (@constructed_init_calls M Data (Static p)) as Hc.
    pose proof (@constructed_dirty M Data (Static p)) as H0.
    pose proof (@constructed_fixedParams M Data (Static p)
                : _fixedParams (Quaternion.SceneJS_Quaternion (Data:=Data) (Static p)) = true)
      as Hf.
    cbv match in Hc.
    repeat split; try assumption.
    + rewrite (render_local_memoLevel (Quaternion_init_ok Data)), H0, Hf.
      reflexivity.
    + rewrite (render_local_calls (Quaternion_init_ok Data)), H0, Hf.
      exact Hc.
    + unfold Quaternion._render.
      now rewrite (static_visits_never_init (Quaternion_init_ok Data)).
  - pose proof (@constructed_init_calls M Data (Dynamic f)) as Hc.
    pose proof (@constructed_dirty M Data (Dynamic f)) as H0.
    pose proof (@constructed_fixedParams M Data (Dynamic f)
                : _fixedParams (Quaternion.SceneJS_Quaternion (Data:=Data) (Dynamic f)) = false)
      as Hf.
    cbv match in Hc.
    destruct (dynamic_visits_always_init (Quaternion_init_ok Data) vs _ Hf H0)
      as (Hl & Hn).
    repeat split; try assumption.
    unfold Quaternion._render. rewrite Hn, Hc. lia.
Qed.

(** C9.  In quaternion.js, a configuration whose [x], [y], [angle] and [w]
    are absent or zero never reaches [setRotation], whatever its [z]: [_init]
    only runs the loop over [rotations].  Without [rotations] the quaternion
    stays as it was, the identity for a node under construction.  The guard
    does not depend on [z] at all. *)
Theorem init_ignores_base_rotation_given_by_z_alone (params : Params.t) n :
  JS.prop_truthy (Params.x params) = false ->
  JS.prop_truthy (Params.y params) = false ->
  JS.prop_truthy (Params.angle params) = false ->
  JS.prop_truthy (Params.w params) = false ->
  calls_of Call_setRotation (Quaternion._init params n)
  = calls_of Call_setRotation n
  /\ Quaternion._init params n =
     match Params.rotations params with
     | Some rs => rotate_each rs (called Call_init n)
     | None => called Call_init n
     end
  /\ (Params.rotations params = None ->
      _q (Quaternion._init params n) = _q n
      /\ _q (Quaternion.SceneJS_Quaternion (Data:=Data) (Static params))
         = SceneJS_math_identityQuaternion)
  /\ (forall z' : JS.prop,
         Quaternion.base_rotation_given
           (Params.mk (Params.x params) (Params.y params) z'
                      (Params.angle params) (Params.w params)
                      (Params.rotations params) (Params.q params))
         = Quaternion.base_rotation_given params).
Proof.
  intros Hx Hy Ha Hw.
  assert (Quaternion.base_rotation_given params = false) as Hg
      by (unfold Quaternion.base_rotation_given; now rewrite Hx, Hy, Ha, Hw).
  assert (forall n, Quaternion._init params n =
          match Params.rotations params with
          | Some rs => rotate_each rs (called Call_init n)
          | None => called Call_init n
          end) as Hinit
      by (intro n0; unfold Quaternion._init; now rewrite Hg).
  split; [|split; [apply Hinit|split]].
  - rewrite Hinit. destruct (Params.rotations params) as [rs|].
    + rewrite rotate_each_calls by discriminate. reflexivity.
    + reflexivity.
  - intro Hr. split.
    + rewrite Hinit, Hr. reflexivity.
    + unfold Quaternion.SceneJS_Quaternion.
      cbn [_fixedParams SceneJS_Node set_mat set_xform set_q _getParams _config].
      rewrite Hinit, Hr. reflexivity.
  - intro z'. reflexivity.
Qed.


End NodeClaims.

(** C6.  In quaternion.js [setRotation(q)] replaces the quaternion by the
    rotation made from [q] with each of x, y, z and angle read with [|| 0]
    ([q] itself defaulting to [{}]), and resets the level to 0.  The other
    revision resets the level too, but leaves the quaternion alone when [q.w]
    is given and otherwise hands [q.angle] over as read, so that an absent
    angle arrives as [undefined] (NaN in arithmetic).  On the math facility of
    the specification: without argument, and for [{x : 1}], quaternion.js sets
    the identity; for [{x : 1}] the other revision sets a quaternion of
    NaNs. *)
Theorem setRotation_defaults_angle_in_quaternion_js_only :
  (forall (M : SceneJS_math) (Data : Type) (q : option Rot.t) (n : Node Data),
      let r := match q with Some r => r | None => Rot.empty end in
      (_q (Quaternion.setRotation q n) =
       SceneJS_math_angleAxisQuaternion
         (JS.or0 (Rot.x r)) (JS.or0 (Rot.y r)) (JS.or0 (Rot.z r))
         (JS.or0 (Rot.angle r))
       /\ _memoLevel (Quaternion.setRotation q n) = 0)
      /\ _memoLevel (QuaternionQ.setRotation q n) = 0
      /\ _q (QuaternionQ.setRotation q n) =
         match Rot.w r with
         | Some _ => _q n
         | None =>
             SceneJS_math_angleAxisQuaternion
               (JS.or0 (Rot.x r)) (JS.or0 (Rot.y r)) (JS.or0 (Rot.z r))
               (JS.ToNumber (Rot.angle r))
         end)
  /\ (_q (Quaternion.setRotation None Examples.dynamic_node) = SpecMath.identity
      /\ _q (Quaternion.setRotation (Some Examples.axisOnly) Examples.dynamic_node)
         = SpecMath.identity
      /\ SpecMath.has_nan
           (_q (QuaternionQ.setRotation (Some Examples.axisOnly)
                                        Examples.dynamic_node_q)) = true).
Proof.
  split.
  - intros M Data q n r. repeat split.
    unfold QuaternionQ.setRotation. fold r. now destruct (Rot.w r).
  - repeat split; reflexivity.
Qed.

(** C8.  The specification's [fromAxisAngle] gives the identity quaternion
    for the zero axis whatever the angle, so for (0, 0, 0, 45), with no NaN
    component, and for a zero angle whatever the axis; this for any [Math.sin]
    and [Math.cos].  The matrix of the result is the identity matrix, and a
    node whose rotation is set to (0, 0, 0, 45) holds the identity
    quaternion. *)
Theorem fromAxisAngle_zero_axis_is_identity
        (Math_sin Math_cos : float -> float) (epsilon angleDegrees : float) :
  SpecMath.fromAxisAngle Math_sin Math_cos 0 0 0 angleDegrees = SpecMath.identity
  /\ SpecMath.fromAxisAngle Math_sin Math_cos 0 0 0 45 = SpecMath.identity
  /\ SpecMath.has_nan (SpecMath.fromAxisAngle Math_sin Math_cos 0 0 0 45) = false
  /\ (forall x y z : float,
         SpecMath.fromAxisAngle Math_sin Math_cos x y z 0 = SpecMath.identity)
  /\ SpecMath.toMatrix (SpecMath.fromAxisAngle Math_sin Math_cos 0 0 0 45)
     = SpecMath.identity_mat4
  /\ (forall (Data : Type)
             (n : @Node (SpecMath.math Math_sin Math_cos epsilon) Data),
         _q (Quaternion.setRotation (Some (Rot.axisAngle 0 0 0 45)) n)
         = SpecMath.identity).
Proof.
  repeat split; try reflexivity.
  intros x y z. unfold SpecMath.fromAxisAngle.
  destruct (PrimFloat.eqb _ _); reflexivity.
Qed.

Lemma rotate_accumulates_witness :
  _q (rotate Examples.aboutX90 (rotate Examples.aboutY90 Examples.dynamic_node))
  <> _q (rotate Examples.aboutY90 (rotate Examples.aboutX90 Examples.dynamic_node)).
Proof.
  apply (@rotate_accumulates SpecMath.float_math Examples.Data
           Examples.aboutY90 Examples.aboutX90 Examples.dynamic_node).
  intro H.
  apply (f_equal (fun v => PrimFloat.ltb (SpecMath.qz v) 0)) in H.
  vm_compute in H. discriminate.
Defined.

(** C7, the claim as stated fails: the static node of the class comment is
    at level 0, not 1, when its constructor returns ([rotate] reset it). *)
Lemma static_node_constructed_at_level_0 :
  _fixedParams Examples.static_node = true
  /\ _memoLevel Examples.static_node <> 1.
Proof.
  split; [reflexivity|].
  intro H. vm_compute in H. discriminate.
Qed.

Lemma init_ignores_base_rotation_given_by_z_alone_witness :
  calls_of Call_setRotation
           (Quaternion._init Examples.onlyZ Examples.dynamic_node) = 0
  /\ _q (Quaternion._init Examples.onlyZ Examples.dynamic_node) = SpecMath.identity.
Proof.
  destruct (@init_ignores_base_rotation_given_by_z_alone
              SpecMath.float_math Examples.Data Examples.onlyZ
              Examples.dynamic_node eq_refl eq_refl eq_refl eq_refl)
    as (Hcalls & _ & Hq & _).
  split.
  - rewrite Hcalls. reflexivity.
  - destruct (Hq eq_refl) as (-> & _). reflexivity.
Defined.

(** ** Further properties of the node *)

Section RotationSequences.

Context {M : SceneJS_math}.
Variable Data : Type.

Implicit Types (n : Node Data) (p : Params.t).

Lemma rotate_each_q rs : forall n,
  _q (rotate_each rs n) = accumulate rs (_q n).
Proof.
  induction rs as [|r rs IH]; intro n; simpl; [reflexivity|].
  rewrite IH. reflexivity.
Qed.

Lemma rotate_each_rotate_calls rs : forall n,
  calls_of Call_rotate (rotate_each rs n) = length rs + calls_of Call_rotate n.
Proof.
  induction rs as [|r rs IH]; intro n; simpl; [reflexivity|].
  rewrite IH. unfold calls_of.
  destruct (rotate_fields r n) as (_ & _ & _ & _ & ->).
  rewrite count_occ_cons_eq by reflexivity. lia.
Qed.

Lemma Quaternion_init_q p n :
  _q (Quaternion._init p n) =
  accumulate (rotations_of p)
             (if Quaternion.base_rotation_given p
              then axisAngleOf (Params.as_rotation p)
              else _q n).
Proof.
  unfold Quaternion._init, rotations_of.
  destruct (Quaternion.base_rotation_given p), (Params.rotations p) as [rs|];
    rewrite ?rotate_each_q; reflexivity.
Qed.

(** X1.  [_init] of quaternion.js builds the quaternion from the
    configuration in this order: the base rotation, when the guard lets it
    through, replaces what the node held, otherwise the node's quaternion
    stays; then each rotation of [rotations] is multiplied on as left
    operand, first to last.  [rotate] runs once per element, and the node is
    left at level 0 as soon as anything was applied. *)
Theorem init_applies_base_then_rotations p n :
  _q (Quaternion._init p n) =
  accumulate (rotations_of p)
             (if Quaternion.base_rotation_given p
              then axisAngleOf (Params.as_rotation p)
              else _q n)
  /\ calls_of Call_rotate (Quaternion._init p n)
     = length (rotations_of p) + calls_of Call_rotate n
  /\ calls_of Call_setRotation (Quaternion._init p n)
     = (if Quaternion.base_rotation_given p then 1 else 0)
       + calls_of Call_setRotation n
  /\ _memoLevel (Quaternion._init p n)
     = match Quaternion.base_rotation_given p, rotations_of p with
       | false, [] => _memoLevel n
       | _, _ => 0
       end.
Proof.
  split; [apply Quaternion_init_q|].
  unfold Quaternion._init, rotations_of.
  destruct (Quaternion.base_rotation_given p), (Params.rotations p) as [rs|];
    rewrite ?rotate_each_rotate_calls, ?rotate_each_memoLevel,
            ?rotate_each_calls by discriminate;
    repeat split; try reflexivity; now destruct rs.
Qed.

Lemma QuaternionQ_init_q p n :
  _q (QuaternionQ._init p n) =
  accumulate (rotations_of p)
             (match Params.q p with
              | Some q =>
                  match Rot.w q with
                  | Some _ => _q n
                  | None =>
                      SceneJS_math_angleAxisQuaternion
                        (JS.or0 (Rot.x q)) (JS.or0 (Rot.y q)) (JS.or0 (Rot.z q))
                        (JS.ToNumber (Rot.angle q))
                  end
              | None => _q n
              end).
Proof.
  unfold QuaternionQ._init, QuaternionQ.setRotation, rotations_of.
  destruct (Params.q p) as [q|], (Params.rotations p) as [rs|];
    rewrite ?rotate_each_q; try reflexivity; now destruct (Rot.w q).
Qed.

(** X9.  [_init] of the revision with a nested [q]: whenever [q] is given,
    [setRotation] is called, once, and the node is left at level 0, whatever
    the fields of [q] are (all zero included); the quaternion is replaced
    only when [q] has no [w], and then the angle is the one read, NaN when
    absent.  The rotations of [rotations] are then multiplied on as in
    quaternion.js. *)
Theorem init_q_revision_applies_q_then_rotations p n :
  _q (QuaternionQ._init p n) =
  accumulate (rotations_of p)
             (match Params.q p with
              | Some q =>
                  match Rot.w q with
                  | Some _ => _q n
                  | None =>
                      SceneJS_math_angleAxisQuaternion
                        (JS.or0 (Rot.x q)) (JS.or0 (Rot.y q)) (JS.or0 (Rot.z q))
                        (JS.ToNumber (Rot.angle q))
                  end
              | None => _q n
              end)
  /\ calls_of Call_setRotation (QuaternionQ._init p n)
     = (match Params.q p with Some _ => 1 | None => 0 end)
       + calls_of Call_setRotation n
  /\ (Params.q p <> None -> _memoLevel (QuaternionQ._init p n) = 0).
Proof.
  split; [apply QuaternionQ_init_q|].
  unfold QuaternionQ._init, QuaternionQ.setRotation.
  destruct (Params.q p) as [q|], (Params.rotations p) as [rs|];
    rewrite ?rotate_each_calls by discriminate; split.
  all: try (intros Hq; try congruence; try apply rotate_each_memoLevel_0;
            now destruct (Rot.w q)).
  all: try (now destruct (Rot.w q)).
  all: reflexivity.
Qed.

(** X8.  Whatever the fields of a rotation object are (absent, zero, NaN),
    [rotate], in both revisions, and [setRotation] of quaternion.js hand the
    math facility four numbers none of which is NaN: [v || 0] turns NaN into
    0. *)
Theorem rotate_hands_over_no_NaN (q : Rot.t) n :
  exists x y z a : float,
    is_nan x = false /\ is_nan y = false /\ is_nan z = false /\ is_nan a = false
    /\ _q (rotate q n) =
       SceneJS_math_mulQuaternions (SceneJS_math_angleAxisQuaternion x y z a) (_q n)
    /\ _q (Quaternion.setRotation (Some q) n) =
       SceneJS_math_angleAxisQuaternion x y z a.
Proof.
  assert (forall v : JS.prop, is_nan (JS.or0 v) = false) as Hnan.
  { intros [v|]; simpl; [|reflexivity].
    destruct (JS.truthy v) eqn:Ht; [|reflexivity].
    unfold JS.truthy in Ht. apply andb_prop in Ht. destruct Ht as (_ & Ht).
    now destruct (is_nan v). }
  exists (JS.or0 (Rot.x q)), (JS.or0 (Rot.y q)), (JS.or0 (Rot.z q)),
         (JS.or0 (Rot.angle q)).
  repeat split; apply Hnan.
Qed.

End RotationSequences.

Section VisitEffects.

Context {M : SceneJS_math}.
Variable Data : Type.
Variable init : Params.t -> Node Data -> Node Data.
Hypothesis Hinit : init_ok init.

Implicit Types (n : Node Data) (v : Visit Data).

Lemma render_local_config data n :
  _config (render_local init data n) = _config n.
Proof.
  unfold render_local.
  destruct (_memoLevel n =? 0); [|reflexivity].
  destruct (_fixedParams n); simpl; [reflexivity|].
  apply (init_config Hinit).
Qed.

Lemma visit_config n v : _config (visit (render_with init) n v) = _config n.
Proof.
  unfold visit. rewrite render_with_node.
  destruct (render_compose_keeps (getTransform (visit_env v))
              (instancing (visit_env v))
              (render_local init (visit_data v) n)) as (_ & _ & _ & _ & ->).
  apply render_local_config.
Qed.

Lemma visit_static_q n v :
  _fixedParams n = true -> _q (visit (render_with init) n v) = _q n.
Proof.
  intro Hf. unfold visit. rewrite render_with_node.
  destruct (render_compose_keeps (getTransform (visit_env v))
              (instancing (visit_env v))
              (render_local init (visit_data v) n)) as (_ & -> & _).
  now apply render_local_static_q.
Qed.

Lemma visit_dynamic_q n v :
  _fixedParams n = false ->
  _memoLevel n = 0 ->
  _q (visit (render_with init) n v) = _q (init (_getParams n (visit_data v)) n).
Proof.
  intros Hf H0. unfold visit. rewrite render_with_node.
  destruct (render_compose_keeps (getTransform (visit_env v))
              (instancing (visit_env v))
              (render_local init (visit_data v) n)) as (_ & -> & _).
  unfold render_local. now rewrite H0, Hf.
Qed.

Lemma visit_memoLevel_mono n v :
  _memoLevel n <= _memoLevel (visit (render_with init) n v).
Proof.
  unfold visit.
  rewrite render_with_node, render_compose_memoLevel.
  rewrite (render_local_memoLevel Hinit).
  assert (_memoLevel n <=
          (if _memoLevel n =? 0
           then if _fixedParams n then 1 else 0
           else _memoLevel n)) as Hloc.
  { destruct (_memoLevel n =? 0) eqn:H0; [|lia].
    apply Nat.eqb_eq in H0. lia. }
  destruct (getTransform (visit_env v)) as [s|]; [|exact Hloc].
  destruct (_mat (render_local init (visit_data v) n)); [|exact Hloc].
  destruct ((_ =? 1) && fixed s && negb (instancing (visit_env v))) eqn:Hg;
    [|exact Hloc].
  apply andb_prop in Hg. destruct Hg as (Hg & _).
  apply andb_prop in Hg. destruct Hg as (Hg & _).
  apply Nat.eqb_eq in Hg. lia.
Qed.

Lemma static_visits_q vs : forall n,
  _fixedParams n = true ->
  _q (render_visits (render_with init) n vs) = _q n.
Proof.
  induction vs as [|v vs IH]; intros n Hf; simpl; [reflexivity|].
  rewrite IH by (now rewrite (visit_fixedParams Hinit)).
  now apply visit_static_q.
Qed.

Lemma cached_visit_with n v :
  _memoLevel n = 2 ->
  visit (render_with init) n v = n
  /\ published init n (visit_data v) (visit_env v) = _xform n.
Proof.
  intro H2.
  assert (render_local init (visit_data v) n = n) as Hl
      by (unfold render_local; now rewrite H2).
  split.
  - unfold visit. rewrite render_with_node, Hl, render_compose_at_2 by lia.
    reflexivity.
  - unfold published. rewrite Hl, render_compose_at_2 by lia. reflexivity.
Qed.

Lemma cached_visits_with vs : forall n,
  _memoLevel n = 2 ->
  render_visits (render_with init) n vs = n
  /\ Forall (fun v => published init n (visit_data v) (visit_env v) = _xform n) vs.
Proof.
  induction vs as [|v vs IH]; intros n H2; simpl; [now split|].
  destruct (@cached_visit_with n v H2) as (Hsame & Hpub).
  rewrite Hsame. destruct (IH n H2) as (Hn & Hall).
  split; [exact Hn|]. now constructor.
Qed.

End VisitEffects.

Section NodeExtras.

Context {M : SceneJS_math}.
Variable Data : Type.

Implicit Types (n : Node Data) (v : Visit Data) (p : Params.t).

Lemma constructed_config (cfg : Config Data) :
  _config (Quaternion.SceneJS_Quaternion cfg) = cfg.
Proof.
  unfold Quaternion.SceneJS_Quaternion. destruct cfg as [p|f]; simpl; [|reflexivity].
  now rewrite (init_config (Quaternion_init_ok Data)).
Qed.

Lemma dynamic_visits_keep (f : option Data -> Params.t) vs : forall n,
  _config n = Dynamic f ->
  _fixedParams n = false ->
  _memoLevel n = 0 ->
  let n' := render_visits (@Quaternion._render M Data) n vs in
  _config n' = Dynamic f /\ _fixedParams n' = false /\ _memoLevel n' = 0.
Proof.
  induction vs as [|v vs IH]; intros n Hc Hf H0; simpl; [now repeat split|].
  apply IH.
  - unfold Quaternion._render.
    now rewrite (visit_config (Quaternion_init_ok Data)).
  - unfold Quaternion._render.
    now rewrite (visit_fixedParams (Quaternion_init_ok Data)).
  - now apply (visit_dynamic_stays_dirty (Quaternion_init_ok Data)).
Qed.

Lemma dynamic_visit_q (f : option Data -> Params.t) n v :
  _config n = Dynamic f ->
  _fixedParams n = false ->
  _memoLevel n = 0 ->
  _q (visit (@Quaternion._render M Data) n v) =
  accumulate (rotations_of (f (visit_data v)))
             (if Quaternion.base_rotation_given (f (visit_data v))
              then axisAngleOf (Params.as_rotation (f (visit_data v)))
              else _q n).
Proof.
  intros Hc Hf H0. unfold Quaternion._render.
  rewrite (@visit_dynamic_q M Data (@Quaternion._init M Data) n v Hf H0).
  unfold _getParams. rewrite Hc. apply Quaternion_init_q.
Qed.

(** X2.  A dynamic node of quaternion.js whose callback never gives a base
    rotation accumulates over the renders: after any sequence of visits its
    quaternion is the identity with the rotations of the first visit's data
    multiplied on, then those of the second, and so on, each as left
    operand. *)
Theorem dynamic_rotations_accumulate_over_renders
        (f : option Data -> Params.t) (vs : list (Visit Data)) :
  (forall d, Quaternion.base_rotation_given (f d) = false) ->
  _q (render_visits (@Quaternion._render M Data)
                    (Quaternion.SceneJS_Quaternion (Dynamic f)) vs) =
  fold_left (fun q v => accumulate (rotations_of (f (visit_data v))) q)
            vs SceneJS_math_identityQuaternion.
Proof.
  intro Hno.
  assert (forall vs n,
             _config n = Dynamic f -> _fixedParams n = false -> _memoLevel n = 0 ->
             _q (render_visits (@Quaternion._render M Data) n vs) =
             fold_left (fun q v => accumulate (rotations_of (f (visit_data v))) q)
                       vs (_q n)) as Hgen.
  { clear vs. induction vs as [|v vs IH]; intros n Hc Hf H0; simpl; [reflexivity|].
    destruct (@dynamic_visits_keep f [v] n Hc Hf H0) as (Hc' & Hf' & H0').
    simpl in Hc', Hf', H0'.
    rewrite (IH _ Hc' Hf' H0').
    rewrite (@dynamic_visit_q f n v Hc Hf H0), Hno. reflexivity. }
  apply (Hgen vs (Quaternion.SceneJS_Quaternion (Dynamic f))); reflexivity.
Qed.

(** X3.  When the callback of a dynamic node of quaternion.js does give a
    base rotation for a render, that render resets the node: whatever was
    rendered before, the quaternion it leaves is the base rotation with that
    render's rotations multiplied on. *)
Theorem base_rotation_in_callback_resets_the_node
        (f : option Data -> Params.t) (vs : list (Visit Data)) (v : Visit Data) :
  Quaternion.base_rotation_given (f (visit_data v)) = true ->
  _q (render_visits (@Quaternion._render M Data)
                    (Quaternion.SceneJS_Quaternion (Dynamic f)) (vs ++ [v])) =
  accumulate (rotations_of (f (visit_data v)))
             (axisAngleOf (Params.as_rotation (f (visit_data v)))).
Proof.
  intro Hbase. unfold render_visits. rewrite fold_left_app. simpl.
  destruct (@dynamic_visits_keep f vs (Quaternion.SceneJS_Quaternion (Dynamic f))
              eq_refl eq_refl eq_refl) as (Hc & Hf & H0).
  fold (render_visits (@Quaternion._render M Data)
                      (Quaternion.SceneJS_Quaternion (Dynamic f)) vs).
  rewrite (@dynamic_visit_q f _ v Hc Hf H0), Hbase. reflexivity.
Qed.

(** X4.  The rotation of a static node of quaternion.js is fixed by its
    configuration: after construction and any number of render visits its
    quaternion is the base rotation (the identity when the guard of [_init]
    does not let one through) with the configured rotations multiplied on,
    and [getMatrix] is the matrix of that quaternion. *)
Theorem static_rotation_fixed_by_configuration p (vs : list (Visit Data)) :
  let n := render_visits (@Quaternion._render M Data)
                         (Quaternion.SceneJS_Quaternion (Static p)) vs in
  let q := accumulate (rotations_of p)
                      (if Quaternion.base_rotation_given p
                       then axisAngleOf (Params.as_rotation p)
                       else SceneJS_math_identityQuaternion) in
  _q n = q /\ getMatrix n = SceneJS_math_newMat4FromQuaternion q.
Proof.
  intros n q.
  assert (_q n = q) as Hq.
  { unfold n, Quaternion._render.
    rewrite (static_visits_q (Quaternion_init_ok Data))
      by apply (@constructed_fixedParams M Data (Static p)).
    unfold Quaternion.SceneJS_Quaternion.
    cbn [_fixedParams SceneJS_Node set_mat set_xform set_q _getParams _config].
    rewrite Quaternion_init_q. reflexivity. }
  split; [exact Hq|]. unfold getMatrix. now rewrite Hq.
Qed.

Lemma run_fixedParams (sts : list (Step Data)) : forall n,
  _fixedParams (run n sts) = _fixedParams n.
Proof.
  unfold run. induction sts as [|st sts IH]; intro n; simpl; [reflexivity|].
  rewrite IH. destruct st as [v|mu]; simpl.
  - apply (visit_fixedParams (Quaternion_init_ok Data)).
  - destruct mu; reflexivity.
Qed.

(** X5.  In every state a node of quaternion.js reaches from its
    construction, by render visits (whose children may throw) and calls of
    [setRotation], [rotate] and [normalize] in any order: the level is at
    most 2; a dynamic node is at level 0; from level 1 on the cached local
    matrix is the one [getMatrix] returns; at level 2 the node is static and
    the cached composed transform holds that local matrix, its product with
    some ambient matrix, and the flag [fixed]. *)
Theorem reachable_caches_match_quaternion
        (cfg : Config Data) (sts : list (Step Data)) :
  let n := run (Quaternion.SceneJS_Quaternion cfg) sts in
  _memoLevel n <= 2
  /\ _fixedParams n = match cfg with Static _ => true | Dynamic _ => false end
  /\ (_fixedParams n = false -> _memoLevel n = 0)
  /\ (1 <= _memoLevel n -> _mat n = Some (getMatrix n))
  /\ (_memoLevel n = 2 ->
      _fixedParams n = true
      /\ exists a, _xform n = Some {| localMatrix := Some (getMatrix n);
                                      matrix := SceneJS_math_mulMat4 a (getMatrix n);
                                      fixed := true |}).
Proof.
  intro n.
  destruct (run_consistent cfg sts) as (Hle & Hdyn & Hmat & Hx). fold n in Hle, Hdyn, Hmat, Hx.
  repeat split; try assumption.
  - unfold n. rewrite run_fixedParams. apply constructed_fixedParams.
  - destruct (_fixedParams n); [reflexivity|].
    specialize (Hdyn eq_refl). lia.
  - now apply Hx.
Qed.

(** X6.  A node at level 2 takes nothing from the traversal: over any
    sequence of visits, in either revision, it stays exactly as it is and
    publishes its cached composed transform each time, whatever the ambient
    transform and the instancing flag of the visit are.  Publishing is read
    off [_render] itself: the render step enters the children with the cached
    transform installed by [setTransform], returns the node as it was, and
    puts the ambient transform back when the children return.  Only a
    mutator takes the node out of level 2. *)
Theorem memoised_node_ignores_traversal_state n (vs : list (Visit Data)) :
  _memoLevel n = 2 ->
  (render_visits (@Quaternion._render M Data) n vs = n
   /\ Forall (fun v => published (@Quaternion._init M Data) n
                                 (visit_data v) (visit_env v) = _xform n) vs)
  /\ (render_visits (@QuaternionQ._render M Data) n vs = n
      /\ Forall (fun v => published (@QuaternionQ._init M Data) n
                                    (visit_data v) (visit_env v) = _xform n) vs)
  /\ (forall data (kids : Children) env,
         Quaternion._render n data kids env =
         match kids (setTransform (_xform n) env) with
         | JS.Throw env' => JS.Throw (n, env')
         | JS.Normal env' => JS.Normal (n, setTransform (getTransform env) env')
         end)
  /\ (forall data (kids : Children) env,
         QuaternionQ._render n data kids env =
         match kids (setTransform (_xform n) env) with
         | JS.Throw env' => JS.Throw (n, env')
         | JS.Normal env' => JS.Normal (n, setTransform (getTransform env) env')
         end).
Proof.
  intro H2. split; [|split; [|split]].
  - apply (cached_visits_with (@Quaternion._init M Data) vs n H2).
  - apply (cached_visits_with (@QuaternionQ._init M Data) vs n H2).
  - intros data kids env. unfold Quaternion._render.
    apply cached_render_with. lia.
  - intros data kids env. unfold QuaternionQ._render.
    apply cached_render_with. lia.
Qed.

(** X7.  A render visit never lowers the memoisation level, in either
    revision and whatever the children do; each mutator sets it to 0. *)
Theorem visits_never_lower_memoLevel n v (mu : Mutation) :
  _memoLevel n <= _memoLevel (visit (@Quaternion._render M Data) n v)
  /\ _memoLevel n <= _memoLevel (visit (@QuaternionQ._render M Data) n v)
  /\ _memoLevel (mutate mu n) = 0.
Proof.
  repeat split.
  - apply (visit_memoLevel_mono (Quaternion_init_ok Data)).
  - apply (visit_memoLevel_mono (QuaternionQ_init_ok Data)).
  - apply mutate_dirty.
Qed.

Lemma constructed_dirty_q (cfg : Config Data) :
  _memoLevel (QuaternionQ.SceneJS_Quaternion cfg) = 0.
Proof.
  unfold QuaternionQ.SceneJS_Quaternion. destruct cfg as [p|f]; simpl; [|reflexivity].
  now apply (init_dirty (QuaternionQ_init_ok Data)).
Qed.

(** X10.  The revision with a nested [q] keeps the same bound under
    instancing: from construction on, over any sequence of render visits that
    all find [instancing()] true, its level is at most 1 after every visit. *)
Theorem q_revision_memoLevel_instancing_at_most_1
        (cfg : Config Data) (vs : list (Visit Data)) (k : nat) :
  Forall (fun v => instancing (visit_env v) = true) vs ->
  _memoLevel (render_visits (@QuaternionQ._render M Data)
                            (QuaternionQ.SceneJS_Quaternion cfg)
                            (firstn k vs)) <= 1.
Proof.
  intro Hall.
  apply (render_visits_memoLevel_instancing (QuaternionQ_init_ok Data)).
  - rewrite constructed_dirty_q. lia.
  - now apply Forall_firstn_keep.
Qed.

End NodeExtras.

(** ** The mouse handling of the examples *)

Lemma ortho_run_invariant (es : list Mouse.Event) : forall s,
  (OrthoTeapot.dragging s = true ->
   OrthoTeapot.lastX s <> None /\ OrthoTeapot.lastY s <> None) ->
  hd_error (OrthoTeapot.rendered s) = Some (OrthoTeapot.yaw s, OrthoTeapot.pitch s) ->
  let s' := OrthoTeapot.run s es in
  (OrthoTeapot.dragging s' = true ->
   OrthoTeapot.lastX s' <> None /\ OrthoTeapot.lastY s' <> None)
  /\ hd_error (OrthoTeapot.rendered s')
     = Some (OrthoTeapot.yaw s', OrthoTeapot.pitch s')
  /\ length (OrthoTeapot.rendered s')
     = length (OrthoTeapot.rendered s)
       + Mouse.drag_moves (OrthoTeapot.dragging s) es.
Proof.
  induction es as [|ev es IH]; intros s Hlast Hhd; simpl.
  - repeat split; try tauto; lia.
  - destruct ev as [e|e|]; simpl.
    + destruct (IH (OrthoTeapot.mouseDown e s)) as (H1 & H2 & H3);
        [intros _; split; discriminate|exact Hhd|].
      split; [exact H1|]. split; [exact H2|]. exact H3.
    + unfold OrthoTeapot.mouseMove.
      destruct (OrthoTeapot.dragging s) eqn:Hd.
      * match goal with |- context [OrthoTeapot.run ?t es] =>
          destruct (IH t) as (H1 & H2 & H3) end;
          [intros _; split; discriminate|reflexivity|].
        split; [exact H1|]. split; [exact H2|]. rewrite H3. simpl. lia.
      * destruct (IH s) as (H1 & H2 & H3);
          [intros Hd'; congruence|exact Hhd|].
        rewrite Hd in H3. split; [exact H1|]. split; [exact H2|]. exact H3.
    + destruct (IH (OrthoTeapot.mouseUp s)) as (H1 & H2 & H3);
        [intros Hd; discriminate|exact Hhd|].
      split; [exact H1|]. split; [exact H2|]. exact H3.
Qed.

(** X11.  In ortho.teapot.js, after any sequence of mouse events: the scene
    has been rendered once at the start and once more for each move that
    arrived while a button was held; the latest render carried the current
    yaw and pitch; and while a drag is on, the last position is set, so no
    move of a drag is measured against [undefined]. *)
Theorem ortho_teapot_renders_follow_the_drag (es : list Mouse.Event) :
  let s := OrthoTeapot.run OrthoTeapot.initial es in
  length (OrthoTeapot.rendered s) = 1 + Mouse.drag_moves false es
  /\ hd_error (OrthoTeapot.rendered s)
     = Some (OrthoTeapot.yaw s, OrthoTeapot.pitch s)
  /\ (OrthoTeapot.dragging s = true ->
      OrthoTeapot.lastX s <> None /\ OrthoTeapot.lastY s <> None).
Proof.
  destruct (@ortho_run_invariant es OrthoTeapot.initial) as (H1 & H2 & H3);
    [discriminate|reflexivity|].
  split; [exact H3|]. split; [exact H2|]. exact H1.
Qed.

Lemma light_run_invariant (es : list Mouse.Event) : forall s,
  (MovingPointLight.dragging s = true ->
   MovingPointLight.lastX s <> None /\ MovingPointLight.lastY s <> None) ->
  MovingPointLight.well_paired (MovingPointLight.issued s) = true ->
  let s' := MovingPointLight.run s es in
  (MovingPointLight.dragging s' = true ->
   MovingPointLight.lastX s' <> None /\ MovingPointLight.lastY s' <> None)
  /\ MovingPointLight.well_paired (MovingPointLight.issued s') = true
  /\ length (MovingPointLight.issued s')
     = length (MovingPointLight.issued s)
       + 2 * Mouse.drag_moves (MovingPointLight.dragging s) es.
Proof.
  induction es as [|ev es IH]; intros s Hlast Hwp; simpl.
  - repeat split; try tauto; lia.
  - destruct ev as [e|e|]; simpl.
    + destruct (IH (MovingPointLight.mouseDown e s)) as (H1 & H2 & H3);
        [intros _; split; discriminate|exact Hwp|].
      split; [exact H1|]. split; [exact H2|]. exact H3.
    + unfold MovingPointLight.mouseMove.
      destruct (MovingPointLight.dragging s) eqn:Hd.
      * match goal with |- context [MovingPointLight.run ?t es] =>
          destruct (IH t) as (H1 & H2 & H3) end.
        -- intros _; split; discriminate.
        -- cbn [MovingPointLight.issued MovingPointLight.well_paired].
           rewrite Hwp.
           destruct (PrimFloat.ltb _ _); reflexivity.
        -- split; [exact H1|]. split; [exact H2|]. rewrite H3. simpl. lia.
      * destruct (IH s) as (H1 & H2 & H3);
          [intros Hd'; congruence|exact Hwp|].
        rewrite Hd in H3. split; [exact H1|]. split; [exact H2|]. exact H3.
    + destruct (IH (MovingPointLight.mouseUp s)) as (H1 & H2 & H3);
        [intros Hd; discriminate|exact Hwp|].
      split; [exact H1|]. split; [exact H2|]. exact H3.
Qed.

(** X12.  In moving-point-light.js, after any sequence of mouse events, what
    the script has asked of the scene is: one render, then, for each move
    that arrived while a button was held, one rotation for the quaternion
    node followed by one render.  Every such rotation is about the x axis
    alone or the y axis alone (axis component 1, no other axis field, an
    angle given).  While a drag is on, the last position is set. *)
Theorem moving_light_issues_one_rotation_per_drag_move (es : list Mouse.Event) :
  let s := MovingPointLight.run MovingPointLight.initial es in
  MovingPointLight.well_paired (MovingPointLight.issued s) = true
  /\ length (MovingPointLight.issued s) = 1 + 2 * Mouse.drag_moves false es
  /\ (MovingPointLight.dragging s = true ->
      MovingPointLight.lastX s <> None /\ MovingPointLight.lastY s <> None).
Proof.
  destruct (@light_run_invariant es MovingPointLight.initial) as (H1 & H2 & H3);
    [discriminate|reflexivity|].
  split; [exact H2|]. split; [exact H3|]. exact H1.
Qed.

Lemma demo_run_invariant (es : list Mouse.Event) : forall s,
  (InstancingDemo.dragging s = true ->
   InstancingDemo.lastX s <> None /\ InstancingDemo.lastY s <> None) ->
  (InstancingDemo.issued s = []
   \/ exists rest,
       InstancingDemo.issued s =
       (InstancingDemo.Yaw_node, InstancingDemo.yaw s)
         :: (InstancingDemo.Pitch_node, InstancingDemo.pitch s) :: rest) ->
  let s' := InstancingDemo.run s es in
  (InstancingDemo.dragging s' = true ->
   InstancingDemo.lastX s' <> None /\ InstancingDemo.lastY s' <> None)
  /\ ((InstancingDemo.issued s' = [] /\ InstancingDemo.issued s = []
       /\ InstancingDemo.yaw s' = InstancingDemo.yaw s
       /\ InstancingDemo.pitch s' = InstancingDemo.pitch s)
      \/ exists rest,
          InstancingDemo.issued s' =
          (InstancingDemo.Yaw_node, InstancingDemo.yaw s')
            :: (InstancingDemo.Pitch_node, InstancingDemo.pitch s') :: rest)
  /\ length (InstancingDemo.issued s')
     = length (InstancingDemo.issued s)
       + 2 * Mouse.drag_moves (InstancingDemo.dragging s) es.
Proof.
  induction es as [|ev es IH]; intros s Hlast Hset; simpl.
  - split; [exact Hlast|]. split; [|lia].
    destruct Hset as [Hnil|Hrest]; [left; tauto|now right].
  - destruct ev as [e|e|]; simpl.
    + destruct (IH (InstancingDemo.mouseDown e s)) as (H1 & H2 & H3);
        [intros _; split; discriminate|exact Hset|].
      split; [exact H1|]. split; [exact H2|]. exact H3.
    + unfold InstancingDemo.mouseMove.
      destruct (InstancingDemo.dragging s) eqn:Hd.
      * match goal with |- context [InstancingDemo.run ?t es] =>
          destruct (IH t) as (H1 & H2 & H3) end.
        -- intros _; split; discriminate.
        -- right. eexists. reflexivity.
        -- split; [exact H1|]. split.
           ++ destruct H2 as [(_ & Hnil & _)|Hrest]; [discriminate|now right].
           ++ rewrite H3. simpl. lia.
      * destruct (IH s) as (H1 & H2 & H3);
          [intros Hd'; congruence|exact Hset|].
        rewrite Hd in H3.
        split; [exact H1|]. split; [exact H2|]. exact H3.
    + destruct (IH (InstancingDemo.mouseUp s)) as (H1 & H2 & H3);
        [intros Hd; discriminate|exact Hset|].
      split; [exact H1|]. split; [exact H2|]. exact H3.
Qed.

(** X13.  In the instancing demo, after any sequence of mouse events: each
    move that arrived while a button was held has set the angle of the
    "pitch" node and then that of the "yaw" node, and nothing else has been
    set; the angles set last are the current pitch and yaw, and before the
    first such move nothing is set and yaw and pitch are still 30 and -30.
    While a drag is on, the last position is set. *)
Theorem instancing_demo_sets_both_angles_per_drag_move (es : list Mouse.Event) :
  let s := InstancingDemo.run InstancingDemo.initial es in
  length (InstancingDemo.issued s) = 2 * Mouse.drag_moves false es
  /\ ((InstancingDemo.issued s = []
       /\ InstancingDemo.yaw s = 30%float /\ InstancingDemo.pitch s = (-30)%float)
      \/ exists rest,
          InstancingDemo.issued s =
          (InstancingDemo.Yaw_node, InstancingDemo.yaw s)
            :: (InstancingDemo.Pitch_node, InstancingDemo.pitch s) :: rest)
  /\ (InstancingDemo.dragging s = true ->
      InstancingDemo.lastX s <> None /\ InstancingDemo.lastY s <> None).
Proof.
  destruct (@demo_run_invariant es InstancingDemo.initial) as (H1 & H2 & H3);
    [discriminate|now left|].
  split; [exact H3|]. split; [|exact H1].
  destruct H2 as [(Hnil & _ & Hy & Hp)|Hrest]; [left|now right].
  repeat split; assumption.
Qed.

Lemma quiet_after_mouseUp_ortho (es : list Mouse.Event) : forall s,
  forallb (fun ev => negb (Mouse.is_down ev)) es = true ->
  OrthoTeapot.run (OrthoTeapot.mouseUp s) es = OrthoTeapot.mouseUp s.
Proof.
  induction es as [|ev es IH]; intros s Hes; simpl; [reflexivity|].
  simpl in Hes. apply andb_prop in Hes. destruct Hes as (Hev & Hes).
  destruct ev as [e|e|]; simpl; try discriminate.
  - exact (IH s Hes).
  - exact (IH (OrthoTeapot.mouseUp s) Hes).
Qed.

Lemma quiet_after_mouseUp_light (es : list Mouse.Event) : forall s,
  forallb (fun ev => negb (Mouse.is_down ev)) es = true ->
  MovingPointLight.run (MovingPointLight.mouseUp s) es = MovingPointLight.mouseUp s.
Proof.
  induction es as [|ev es IH]; intros s Hes; simpl; [reflexivity|].
  simpl in Hes. apply andb_prop in Hes. destruct Hes as (Hev & Hes).
  destruct ev as [e|e|]; simpl; try discriminate.
  - exact (IH s Hes).
  - exact (IH (MovingPointLight.mouseUp s) Hes).
Qed.

Lemma quiet_after_mouseUp_demo (es : list Mouse.Event) : forall s,
  forallb (fun ev => negb (Mouse.is_down ev)) es = true ->
  InstancingDemo.run (InstancingDemo.mouseUp s) es = InstancingDemo.mouseUp s.
Proof.
  induction es as [|ev es IH]; intros s Hes; simpl; [reflexivity|].
  simpl in Hes. apply andb_prop in Hes. destruct Hes as (Hev & Hes).
  destruct ev as [e|e|]; simpl; try discriminate.
  - exact (IH s Hes).
  - exact (IH (InstancingDemo.mouseUp s) Hes).
Qed.

(** X14.  In all three scripts, once the button is released the mouse is
    ignored until it is pressed again: from the state [mouseUp] leaves, any
    sequence of moves and releases changes nothing, neither the angles nor
    what has been asked of the scene. *)
Theorem mouse_ignored_between_drags (es : list Mouse.Event)
        (s1 : OrthoTeapot.State) (s2 : MovingPointLight.State)
        (s3 : InstancingDemo.State) :
  forallb (fun ev => negb (Mouse.is_down ev)) es = true ->
  OrthoTeapot.run (OrthoTeapot.mouseUp s1) es = OrthoTeapot.mouseUp s1
  /\ MovingPointLight.run (MovingPointLight.mouseUp s2) es
     = MovingPointLight.mouseUp s2
  /\ InstancingDemo.run (InstancingDemo.mouseUp s3) es = InstancingDemo.mouseUp s3.
Proof.
  intro Hes. repeat split.
  - now apply quiet_after_mouseUp_ortho.
  - now apply quiet_after_mouseUp_light.
  - now apply quiet_after_mouseUp_demo.
Qed.

Lemma dynamic_rotations_accumulate_over_renders_witness :
  _q (render_visits
        (@Quaternion._render SpecMath.float_math Examples.Data)
        Examples.dynamic_node
        [mkVisit (Some [Examples.aboutX90]) Examples.no_children Examples.scene;
         mkVisit (Some [Examples.aboutY90]) Examples.failing_child Examples.scene])
  = @accumulate SpecMath.float_math [Examples.aboutY90]
      (@accumulate SpecMath.float_math [Examples.aboutX90] SpecMath.identity).
Proof.
  apply (@dynamic_rotations_accumulate_over_renders
           SpecMath.float_math Examples.Data
           (fun data => Params.mk None None None None None data None)
           [mkVisit (Some [Examples.aboutX90]) Examples.no_children Examples.scene;
            mkVisit (Some [Examples.aboutY90]) Examples.failing_child Examples.scene]).
  intro d. reflexivity.
Defined.

Lemma base_rotation_in_callback_resets_the_node_witness :
  let f := fun data : option Examples.Data =>
             Params.mk (Some 0%float) (Some 1%float) (Some 0%float)
                       (Some 90%float) None data None in
  let v1 := mkVisit (Some [Examples.aboutX20]) Examples.no_children Examples.scene in
  let v2 := mkVisit (Some [Examples.aboutZ45]) Examples.no_children Examples.scene in
  _q (render_visits (@Quaternion._render SpecMath.float_math Examples.Data)
                    (Quaternion.SceneJS_Quaternion (Dynamic f)) ([v1] ++ [v2]))
  = @accumulate SpecMath.float_math [Examples.aboutZ45]
      (@axisAngleOf SpecMath.float_math Examples.aboutY90).
Proof.
  intros f v1 v2.
  apply (@base_rotation_in_callback_resets_the_node
           SpecMath.float_math Examples.Data f [v1] v2).
  reflexivity.
Defined.

Lemma memoised_node_ignores_traversal_state_witness :
  let n := visit (@Quaternion._render SpecMath.float_math Examples.Data)
                 Examples.static_node
                 (mkVisit None Examples.no_children Examples.scene) in
  render_visits (@Quaternion._render SpecMath.float_math Examples.Data) n
                [mkVisit None Examples.failing_child Examples.instanced_scene]
  = n
  /\ Quaternion._render n None Examples.failing_child Examples.instanced_scene
     = JS.Throw (n, setTransform (_xform n) Examples.instanced_scene).
Proof.
  intro n.
  assert (_memoLevel n = 2) as H2 by (vm_compute; reflexivity).
  destruct (@memoised_node_ignores_traversal_state
              SpecMath.float_math Examples.Data n
              [mkVisit None Examples.failing_child Examples.instanced_scene] H2)
    as ((Hsame & _) & _ & Hrender & _).
  split; [exact Hsame|].
  exact (Hrender None Examples.failing_child Examples.instanced_scene).
Defined.

Lemma q_revision_memoLevel_instancing_at_most_1_witness :
  let v := mkVisit None Examples.no_children Examples.instanced_scene in
  _memoLevel (render_visits (@QuaternionQ._render SpecMath.float_math Examples.Data)
                            (QuaternionQ.SceneJS_Quaternion (Static Examples.documented))
                            (firstn 2 [v; v; v])) <= 1.
Proof.
  intro v.
  apply (@q_revision_memoLevel_instancing_at_most_1
           SpecMath.float_math Examples.Data
           (Static Examples.documented) [v; v; v] 2).
  repeat constructor.
Defined.

Lemma mouse_ignored_between_drags_witness :
  let e := Mouse.mkEvent 12 7 in
  OrthoTeapot.run (OrthoTeapot.mouseUp OrthoTeapot.initial)
                  [Mouse.Move e; Mouse.Up; Mouse.Move e]
  = OrthoTeapot.mouseUp OrthoTeapot.initial.
Proof.
  intro e.
  exact (proj1 (@mouse_ignored_between_drags
                  [Mouse.Move e; Mouse.Up; Mouse.Move e]
                  OrthoTeapot.initial MovingPointLight.initial
                  InstancingDemo.initial eq_refl)).
Defined.

(** ** When a node becomes fully memoised *)

Section Promotion.

Context {M : SceneJS_math}.
Variable Data : Type.

Implicit Types (n : Node Data) (v : Visit Data).

Lemma visit_level_below_2 n v :
  consistent n ->
  _memoLevel n <= 1 ->
  _memoLevel (visit (@Quaternion._render M Data) n v) =
  if _fixedParams n
  then (if promoting v then 2 else 1)
  else 0.
Proof.
  intros Hc Hle. pose proof Hc as (_ & Hdyn & _ & _).
  assert (_memoLevel n < 2) as Hlt by lia.
  pose proof (render_local_mat (@Quaternion._init M Data) (visit_data v) Hc Hlt)
    as Hmat.
  unfold visit, Quaternion._render.
  rewrite render_with_node, render_compose_memoLevel, Hmat.
  rewrite (render_local_memoLevel (Quaternion_init_ok Data)).
  unfold promoting.
  destruct (_fixedParams n) eqn:Hf.
  - assert ((if _memoLevel n =? 0 then 1 else _memoLevel n) = 1) as ->.
    { destruct (_memoLevel n) as [|[|k]] eqn:E; simpl; lia. }
    destruct (getTransform (visit_env v)) as [s|]; reflexivity.
  - rewrite (Hdyn eq_refl). simpl.
    destruct (getTransform (visit_env v)) as [s|]; reflexivity.
Qed.

Lemma visits_level_is_2 vs : forall n,
  consistent n ->
  _memoLevel n <= 1 ->
  (_memoLevel (render_visits (@Quaternion._render M Data) n vs) =? 2)
  = _fixedParams n && existsb (@promoting M Data) vs.
Proof.
  induction vs as [|v vs IH]; intros n Hc Hle; simpl.
  - rewrite andb_false_r. apply Nat.eqb_neq. lia.
  - pose proof (visit_level_below_2 v Hc Hle) as Hlev.
    pose proof (visit_consistent (Quaternion_init_ok Data) v Hc) as Hc'.
    pose proof (visit_fixedParams (Quaternion_init_ok Data) n v) as Hf'.
    fold (@Quaternion._render M Data) in Hc', Hf'.
    destruct (_fixedParams n) eqn:Hf; [destruct (promoting v) eqn:Hp|].
    + destruct (cached_visits_with (@Quaternion._init M Data) vs _ Hlev)
        as (Hsame & _).
      fold (@Quaternion._render M Data) in Hsame.
      rewrite Hsame, Hlev. reflexivity.
    + rewrite IH by (assumption || lia). now rewrite Hf'.
    + rewrite IH by (assumption || lia). now rewrite Hf'.
Qed.

(** X15.  After construction and any sequence of render visits, a node of
    quaternion.js is at level 2 exactly when its configuration is static and
    at least one of the visits found an ambient transform flagged fixed with
    instancing off; the children, and whether they threw, play no part. *)
Theorem fully_memoised_iff_static_and_fixed_visit
        (cfg : Config Data) (vs : list (Visit Data)) :
  (_memoLevel (render_visits (@Quaternion._render M Data)
                             (Quaternion.SceneJS_Quaternion cfg) vs) =? 2)
  = (match cfg with Static _ => true | Dynamic _ => false end)
    && existsb (@promoting M Data) vs.
Proof.
  rewrite visits_level_is_2.
  - now rewrite constructed_fixedParams.
  - apply dirty_consistent, constructed_dirty.
  - rewrite constructed_dirty. lia.
Qed.

End Promotion.
